(** * PixelArt: sampling an image into a grid of cubes, and its animations

    A shallow embedding of [src/pages/PixelArt.tsx]: the sampler
    [createPixelData], the component state of [PixelArt] and [PixelGrid],
    the reveal and displacement frame callbacks, the reset effect and the
    timer-driven mode transitions.

    In the model of the page ([World]) JavaScript numbers are extended
    rationals ([number]): exact finite values together with [NaN] and the
    two infinities.  Binary64 rounding and the sign of zero are not
    represented there; every quantity the sampler computes (integers,
    halves, a byte over 255 compared at 0 and 1) is unaffected by that.
    Grid sizes, indices and counters are integers ([Z]), as the number
    inputs of the page deliver them.  In that model a state setter is seen
    by the next callback that runs.

    The reveal animation is embedded a second time ([Render]), with the
    arithmetic of the program, binary64 ([PrimFloat]), and with the closures
    of React: a callback reads the props and the state of the render that
    created it.

    Browser calls are parameters of the model: [getContext] may yield
    [null], and [drawImage] followed by [getImageData] answers with a pixel
    buffer or throws. *)

From Stdlib Require Import ZArith List Bool Lia Lqa String QArith Qcanon Permutation.
From Stdlib Require Import PrimFloat.
Import ListNotations.

#[local] Open Scope Z_scope.

(** ** Numbers *)

Module Num.

Inductive number : Type :=
| NaN
| PInf
| NInf
| Fin (q : Qc).

Definition ofZ (n : Z) : number := Fin (Q2Qc (inject_Z n)).

Definition is_zero (q : Qc) : bool := Qc_eq_bool q (Q2Qc 0).
Definition is_pos (q : Qc) : bool :=
  match (Q2Qc 0 ?= q)%Qc with Lt => true | _ => false end.

(** Unary minus. *)
Definition neg (a : number) : number :=
  match a with
  | NaN => NaN
  | PInf => NInf
  | NInf => PInf
  | Fin q => Fin (- q)%Qc
  end.

Definition add (a b : number) : number :=
  match a, b with
  | NaN, _ | _, NaN => NaN
  | PInf, NInf | NInf, PInf => NaN
  | PInf, _ | _, PInf => PInf
  | NInf, _ | _, NInf => NInf
  | Fin p, Fin q => Fin (p + q)%Qc
  end.

Definition sub (a b : number) : number := add a (neg b).

(** The infinity carrying the sign of [q] times the sign of [pos]. *)
Definition signed_inf (pos : bool) (q : Qc) : number :=
  if is_zero q then NaN
  else if Bool.eqb pos (is_pos q) then PInf else NInf.

Definition mul (a b : number) : number :=
  match a, b with
  | NaN, _ | _, NaN => NaN
  | PInf, PInf | NInf, NInf => PInf
  | PInf, NInf | NInf, PInf => NInf
  | PInf, Fin q | Fin q, PInf => signed_inf true q
  | NInf, Fin q | Fin q, NInf => signed_inf false q
  | Fin p, Fin q => Fin (p * q)%Qc
  end.

Definition div (a b : number) : number :=
  match a, b with
  | NaN, _ | _, NaN => NaN
  | (PInf | NInf), (PInf | NInf) => NaN
  | Fin _, (PInf | NInf) => Fin (Q2Qc 0)
  | PInf, Fin q => if is_zero q then PInf else signed_inf true q
  | NInf, Fin q => if is_zero q then NInf else signed_inf false q
  | Fin p, Fin q =>
      if is_zero q then signed_inf true p else Fin (p / q)%Qc
  end.

(** [a < b]; every comparison with [NaN] is false. *)
Definition lt (a b : number) : bool :=
  match a, b with
  | NaN, _ | _, NaN => false
  | _, NInf => false
  | NInf, _ => true
  | PInf, _ => false
  | Fin _, PInf => true
  | Fin p, Fin q => match (p ?= q)%Qc with Lt => true | _ => false end
  end.

Definition gt (a b : number) : bool := lt b a.

End Num.
Import Num.

(** ** Data model *)

(** [THREE.Color]: the three channels as given to the constructor. *)
Record Color : Type := mkColor { r : number; g : number; b : number }.

(** [type PixelInfo = { x; y; z; color }]. *)
Record PixelInfo : Type := mkPixelInfo {
  x : number;
  y : number;
  z : number;
  color : Color
}.

Definition DEFAULT_PIXEL_SIZE : Z := 64.
Definition ANIMATION_TIME : Z := 3.

(** ** JavaScript arrays

    An array is a list of slots; a hole (or a read past the end) is
    [undefined], rendered as [None]. *)

Module JsArray.

Definition array (A : Type) : Type := list (option A).

(** [arr[i]]. *)
Definition get {A} (arr : array A) (i : Z) : option A :=
  if i <? 0 then None
  else match nth_error arr (Z.to_nat i) with
       | Some slot => slot
       | None => None
       end.

Fixpoint set_nat {A} (arr : array A) (i : nat) (v : A) : array A :=
  match arr, i with
  | [], O => [Some v]
  | [], S i' => None :: set_nat [] i' v
  | _ :: rest, O => Some v :: rest
  | slot :: rest, S i' => slot :: set_nat rest i' v
  end.

(** [arr[i] = v] for an index [i >= 0]: a write past the end grows the
    array, leaving holes. A negative index does not touch the slots. *)
Definition set {A} (arr : array A) (i : Z) (v : A) : array A :=
  if i <? 0 then arr else set_nat arr (Z.to_nat i) v.

(** [Array(n).fill(v)]. *)
Definition fill {A} (n : nat) (v : A) : array A := repeat (Some v) n.

End JsArray.

(** ** Counted loops *)

(** The indices [0, 1, ..., n-1] visited by [for (let i = 0; i < n; i++)]. *)
Definition indices (n : Z) : list Z := map Z.of_nat (seq 0 (Z.to_nat n)).

(** [for (let i = from; i < to; i++) s = body i s]. *)
Definition for_range {S : Type} (from to : Z) (body : Z -> S -> S) (s : S) : S :=
  fold_left (fun s i => body (from + i) s) (indices (to - from)) s.

(** ** The sampler *)

(** [ImageData.data], a [Uint8ClampedArray]: one byte per channel, four per
    cell, row after row. *)
Definition Uint8ClampedArray : Type := list Z.

(** [data[idx]]: a byte, or [undefined] outside the array. *)
Definition byte_at (data : Uint8ClampedArray) (idx : Z) : option Z :=
  if idx <? 0 then None else nth_error data (Z.to_nat idx).

(** The number a byte read stands for in arithmetic and comparisons:
    [undefined] converts to [NaN]. *)
Definition ToNumber (v : option Z) : number :=
  match v with
  | Some n => ofZ n
  | None => NaN
  end.

(** The body of the inner loop, lines 455-469: the state is [idx] and
    [result]. *)
Definition sample_cell (data : Uint8ClampedArray) (targetWidth targetHeight : Z)
    (y x : Z) (st : Z * list PixelInfo) : Z * list PixelInfo :=
  let '(idx, result) := st in
  let r := byte_at data idx in
  let g := byte_at data (idx + 1) in
  let b := byte_at data (idx + 2) in
  let a := byte_at data (idx + 3) in
  let idx := idx + 4 in
  if lt (ToNumber a) (ofZ 30) then (idx, result)
  else
    (idx,
     result ++
       [ {| x := sub (ofZ x) (div (ofZ targetWidth) (ofZ 2));
            y := add (neg (ofZ y)) (div (ofZ targetHeight) (ofZ 2));
            z := ofZ 0;
            color := mkColor (div (ToNumber r) (ofZ 255))
                             (div (ToNumber g) (ofZ 255))
                             (div (ToNumber b) (ofZ 255)) |} ]).

(** Lines 450-472: the two nested loops over the pixel buffer. *)
Definition sample (data : Uint8ClampedArray) (targetWidth targetHeight : Z)
  : list PixelInfo :=
  snd (for_range 0 targetHeight
         (fun y st => for_range 0 targetWidth (sample_cell data targetWidth targetHeight y) st)
         (0, [])).

Inductive Result (A : Type) : Type :=
| Ok (a : A)
| Throw (message : string).
Arguments Ok {A} a.
Arguments Throw {A} message.

Record ImageData : Type := { data : Uint8ClampedArray }.

Section Canvas.

(** The browser side of the sampler.  [HTMLImageElement] is the decoded
    image; a 2D context, when the canvas yields one, answers
    [drawImage(img, 0, 0, w, h)] followed by [getImageData(0, 0, w, h)]
    with the pixel buffer of the scaled image, or one of the two calls
    throws (as [getImageData] does for a width or a height of 0). *)
Variable HTMLImageElement : Type.

Record CanvasRenderingContext2D : Type := {
  drawImage_getImageData : HTMLImageElement -> Z -> Z -> Result ImageData
}.

(** [canvas.getContext("2d")] on a canvas of the given width and height:
    a context, or [null]. *)
Variable getContext : Z -> Z -> option CanvasRenderingContext2D.

Definition createPixelData (img : HTMLImageElement) (targetWidth targetHeight : Z)
  : Result (list PixelInfo) :=
  match getContext targetWidth targetHeight with
  | None => Throw "No 2D context available"
  | Some ctx =>
      match drawImage_getImageData ctx img targetWidth targetHeight with
      | Throw message => Throw message
      | Ok imgData =>
          let data := data imgData in
          Ok (sample data targetWidth targetHeight)
      end
  end.

End Canvas.

Arguments drawImage_getImageData {HTMLImageElement} _ _ _ _.
Arguments createPixelData {HTMLImageElement} getContext img targetWidth targetHeight.

(** ** Component state *)

(** [THREE.Vector3], also the shape of a scatter target [{x, y, z}]. *)
Module Vector3.
Record t : Type := make { x : number; y : number; z : number }.
End Vector3.

(** A child of the group: the mesh of one [PixelBox]. *)
Record Mesh : Type := { position : Vector3.t }.

(** The [useState] slots of [PixelArt]. *)
Record PixelArtState : Type := {
  pixels : option (list PixelInfo);
  tempPixelWidth : Z;
  tempPixelHeight : Z;
  pixelWidth : Z;
  pixelHeight : Z;
  fileChangeCount : Z;
  imageSrc : option string;
  animation : string
}.

(** The [useState] and [useRef] slots of [PixelGrid]; [groupRef] holds the
    children of the group, or [None] while the ref is [null]. *)
Record PixelGridState : Type := {
  scales : JsArray.array Z;
  scaleProgressRef : number;
  batchIndexRef : Z;
  prevFileChangeCountRef : Z;
  lastAnimationRef : string;
  animationProgressRef : number;
  scatterPositionsRef : list Vector3.t;
  groupRef : option (list Mesh)
}.

(** A pending [setTimeout]: the time it is due (ms) and the mode its
    callback passes to [setAnimation]. *)
Record Timer : Type := { due : Z; mode : string }.

Record World : Type := {
  art : PixelArtState;
  grid : PixelGridState;
  timers : list Timer;
  clock : Z
}.

Definition with_art (a : PixelArtState) (w : World) : World :=
  {| art := a; grid := grid w; timers := timers w; clock := clock w |}.

Definition with_grid (g : PixelGridState) (w : World) : World :=
  {| art := art w; grid := g; timers := timers w; clock := clock w |}.

(** The initial slots of a [PixelGrid] mounted with the given props; the
    scatter targets come from [Math.random].  (The earlier copy of the
    component, with one [pixelSize] for both sides, starts
    [fileChangeCountRef] at 0 and [lastAnimationRef] at ["default"]; its
    effect and callbacks are the ones below with [pixelWidth = pixelSize].) *)
Definition PixelGrid_init (pixels : list PixelInfo) (animation : string)
    (fileChangeCount : Z) (scatter : list Vector3.t) (children : option (list Mesh))
  : PixelGridState :=
  {| scales := JsArray.fill (List.length pixels) 0;
     scaleProgressRef := ofZ 0;
     batchIndexRef := 0;
     prevFileChangeCountRef := fileChangeCount;
     lastAnimationRef := animation;
     animationProgressRef := ofZ 0;
     scatterPositionsRef := scatter;
     groupRef := children |}.

(** ** Reveal animation *)

(** The effect of lines 59-69; React runs it after a commit in which one of
    [fileChangeCount], [pixels.length], [pixelWidth], [pixelHeight] changed. *)
Definition resetEffect (w : World) : World :=
  match pixels (art w) with
  | None => w
  | Some pixels =>
      let g := grid w in
      if negb (fileChangeCount (art w) =? prevFileChangeCountRef g) then
        with_grid
          {| scales := JsArray.fill (List.length pixels) 0;
             scaleProgressRef := ofZ 0;
             batchIndexRef := 0;
             prevFileChangeCountRef := fileChangeCount (art w);
             lastAnimationRef := lastAnimationRef g;
             animationProgressRef := animationProgressRef g;
             scatterPositionsRef := scatterPositionsRef g;
             groupRef := groupRef g |} w
      else w
  end.

(** [pixels.length / pixelWidth]. *)
Definition batchCount (pixels : list PixelInfo) (pixelWidth : Z) : number :=
  div (ofZ (Z.of_nat (List.length pixels))) (ofZ pixelWidth).

(** [batchIndexRef.current * (ANIMATION_TIME / (pixels.length / pixelWidth))]. *)
Definition threshold (batchIndex : Z) (pixels : list PixelInfo) (pixelWidth : Z) : number :=
  mul (ofZ batchIndex) (div (ofZ ANIMATION_TIME) (batchCount pixels pixelWidth)).

(** The first [useFrame] callback, lines 72-100. *)
Definition revealFrame (delta : number) (w : World) : World :=
  match pixels (art w) with
  | None => w
  | Some pixels =>
      let g := grid w in
      let pixelWidth := pixelWidth (art w) in
      if gt (ofZ (batchIndexRef g)) (batchCount pixels pixelWidth) then w
      else
        let scaleProgress := add (scaleProgressRef g) delta in
        let threshold := threshold (batchIndexRef g) pixels pixelWidth in
        if gt scaleProgress threshold then
          let newScales := scales g in
          let startIndex := batchIndexRef g * pixelWidth in
          let endIndex := Z.min (startIndex + pixelWidth) (Z.of_nat (List.length pixels)) in
          let newScales :=
            for_range startIndex endIndex (fun i newScales => JsArray.set newScales i 1) newScales in
          with_grid
            {| scales := newScales;
               scaleProgressRef := scaleProgress;
               batchIndexRef := batchIndexRef g + 1;
               prevFileChangeCountRef := prevFileChangeCountRef g;
               lastAnimationRef := lastAnimationRef g;
               animationProgressRef := animationProgressRef g;
               scatterPositionsRef := scatterPositionsRef g;
               groupRef := groupRef g |} w
        else
          with_grid
            {| scales := scales g;
               scaleProgressRef := scaleProgress;
               batchIndexRef := batchIndexRef g;
               prevFileChangeCountRef := prevFileChangeCountRef g;
               lastAnimationRef := lastAnimationRef g;
               animationProgressRef := animationProgressRef g;
               scatterPositionsRef := scatterPositionsRef g;
               groupRef := groupRef g |} w
  end.

(** ** Displacement animation *)

(** How a callback ends: normally, or by an uncaught exception that leaves
    the writes made so far in place. *)
Inductive Completion : Type :=
| Normal
| Abrupt (message : string).

(** [children[i]?.position.set(...)]: nothing happens without a child [i]. *)
Fixpoint position_set (children : list Mesh) (i : nat) (v : Vector3.t) : list Mesh :=
  match children, i with
  | [], _ => []
  | _ :: rest, O => {| position := v |} :: rest
  | m :: rest, S i' => m :: position_set rest i' v
  end.

Section Displacement.

(** [Math.sin] and [Math.PI]. *)
Variable Math_sin : number -> number.
Variable Math_PI : number.

(** Lines 151-196: the position written for one pixel.  Reading a field
    of a missing scatter target is a [TypeError]. *)
Definition targetPosition (animation : string)
    (animationProgress smoothProgress : number)
    (scatter : option Vector3.t) (pixel : PixelInfo) : Result Vector3.t :=
  let targetX := x pixel in
  let targetY := y pixel in
  let targetZ := z pixel in
  if (animation =? "explosion_start")%string then
    match scatter with
    | None => Throw "TypeError"
    | Some s =>
        Ok (Vector3.make
              (add (mul (Vector3.x s) smoothProgress)
                   (mul (x pixel) (sub (ofZ 1) smoothProgress)))
              (add (mul (Vector3.y s) smoothProgress)
                   (mul (y pixel) (sub (ofZ 1) smoothProgress)))
              (add (mul (Vector3.z s) smoothProgress)
                   (mul (z pixel) (sub (ofZ 1) smoothProgress))))
    end
  else if (animation =? "explosion_end")%string then
    match scatter with
    | None => Throw "TypeError"
    | Some s =>
        Ok (Vector3.make
              (add (mul (Vector3.x s) (sub (ofZ 1) smoothProgress))
                   (mul (x pixel) smoothProgress))
              (add (mul (Vector3.y s) (sub (ofZ 1) smoothProgress))
                   (mul (y pixel) smoothProgress))
              (add (mul (Vector3.z s) (sub (ofZ 1) smoothProgress))
                   (mul (z pixel) smoothProgress)))
    end
  else if (animation =? "wave_start")%string then
    Ok (Vector3.make targetX targetY
          (mul
             (mul
                (Math_sin
                   (mul (add (add (x pixel) (z pixel))
                             (mul animationProgress (ofZ 10)))
                        (Fin (Q2Qc (3 # 10)))))
                (ofZ 5))
             smoothProgress))
  else if (animation =? "wave_end")%string then
    Ok (Vector3.make targetX targetY
          (mul
             (mul
                (Math_sin
                   (mul (add (add (x pixel) (z pixel))
                             (mul (sub (ofZ 1) animationProgress) (ofZ 10)))
                        (Fin (Q2Qc (3 # 10)))))
                (ofZ 5))
             (sub (ofZ 1) smoothProgress)))
  else Ok (Vector3.make targetX targetY targetZ).

(** [pixels.forEach((pixel, i) => ...)], lines 149-200, from index [i]. *)
Fixpoint placePixels (animation : string) (animationProgress smoothProgress : number)
    (scatterPositions : list Vector3.t) (pixels : list PixelInfo) (i : nat)
    (group : option (list Mesh)) : option (list Mesh) * Completion :=
  match pixels with
  | [] => (group, Normal)
  | pixel :: rest =>
      match targetPosition animation animationProgress smoothProgress
              (nth_error scatterPositions i) pixel with
      | Throw message => (group, Abrupt message)
      | Ok target =>
          placePixels animation animationProgress smoothProgress scatterPositions
            rest (S i)
            (match group with
             | None => None
             | Some children => Some (position_set children i target)
             end)
      end
  end.

(** Lines 139-142. *)
Definition advanceProgress (delta animationProgress : number) : number :=
  if lt animationProgress (ofZ 1) then
    let p := add animationProgress (div delta (ofZ ANIMATION_TIME)) in
    if gt p (ofZ 1) then ofZ 1 else p
  else animationProgress.

(** The second [useFrame] callback, lines 129-201. *)
Definition displacementFrame (delta : number) (w : World) : World * Completion :=
  match pixels (art w) with
  | None => (w, Normal)
  | Some pixels =>
      let g := grid w in
      let animation := animation (art w) in
      let changed := negb (animation =? lastAnimationRef g)%string in
      let lastAnimation := if changed then animation else lastAnimationRef g in
      let animationProgress := if changed then ofZ 0 else animationProgressRef g in
      if (animation =? "default")%string then
        (with_grid
           {| scales := scales g;
              scaleProgressRef := scaleProgressRef g;
              batchIndexRef := batchIndexRef g;
              prevFileChangeCountRef := prevFileChangeCountRef g;
              lastAnimationRef := lastAnimation;
              animationProgressRef := animationProgress;
              scatterPositionsRef := scatterPositionsRef g;
              groupRef := groupRef g |} w,
         Normal)
      else
        let animationProgress := advanceProgress delta animationProgress in
        let smoothProgress :=
          Math_sin (div (mul animationProgress Math_PI) (ofZ 2)) in
        let '(group, completion) :=
          placePixels animation animationProgress smoothProgress
            (scatterPositionsRef g) pixels 0 (groupRef g) in
        (with_grid
           {| scales := scales g;
              scaleProgressRef := scaleProgressRef g;
              batchIndexRef := batchIndexRef g;
              prevFileChangeCountRef := prevFileChangeCountRef g;
              lastAnimationRef := lastAnimation;
              animationProgressRef := animationProgress;
              scatterPositionsRef := scatterPositionsRef g;
              groupRef := group |} w,
         completion)
  end.

(** One rendered frame: the two callbacks in the order they subscribed. *)
Definition frame (delta : number) (w : World) : World :=
  fst (displacementFrame delta (revealFrame delta w)).

Definition frames (deltas : list number) (w : World) : World :=
  fold_left (fun w delta => frame delta w) deltas w.

End Displacement.

(** ** The page: file selection, reload, sampling *)






(** [!imageSrc]: [null] and the empty string are both falsy. *)
Definition no_image (imageSrc : option string) : bool :=
  match imageSrc with
  | None => true
  | Some url => (url =? EmptyString)%string
  end.

(** Lines 279-283. *)
Definition reloadImage (w : World) : World :=
  let a := art w in
  if no_image (imageSrc a) then w
  else
    with_art
      {| pixels := pixels a;
         tempPixelWidth := tempPixelWidth a;
         tempPixelHeight := tempPixelHeight a;
         pixelWidth := tempPixelWidth a;
         pixelHeight := tempPixelHeight a;
         fileChangeCount := fileChangeCount a;
         imageSrc := imageSrc a;
         animation := animation a |} w.

(** An [Image] whose [onload] is pending; the closure holds the sizes of
    the render that ran the effect. *)
Record PendingImage : Type := {
  src : string;
  loadPixelWidth : Z;
  loadPixelHeight : Z
}.

(** The effect of lines 288-299; React runs it after a commit in which one
    of [pixelWidth], [pixelHeight], [imageSrc] changed. *)
Definition imageEffect (w : World) : World * option PendingImage :=
  let a := art w in
  match imageSrc a with
  | None => (w, None)
  | Some url =>
      if (url =? EmptyString)%string then (w, None)
      else
        (with_art
           {| pixels := pixels a;
              tempPixelWidth := tempPixelWidth a;
              tempPixelHeight := tempPixelHeight a;
              pixelWidth := pixelWidth a;
              pixelHeight := pixelHeight a;
              fileChangeCount := fileChangeCount a + 1;
              imageSrc := imageSrc a;
              animation := animation a |} w,
         Some {| src := url;
                 loadPixelWidth := pixelWidth a;
                 loadPixelHeight := pixelHeight a |})
  end.

Section ImageLoad.

Variable HTMLImageElement : Type.
Variable getContext : Z -> Z -> option (CanvasRenderingContext2D HTMLImageElement).

(** Lines 294-297: [img.onload]; an exception of the sampler leaves the
    state as it was. *)
Definition img_onload (img : HTMLImageElement) (load : PendingImage) (w : World)
  : Result World :=
  match createPixelData getContext img (loadPixelWidth load) (loadPixelHeight load) with
  | Throw message => Throw message
  | Ok pix =>
      let a := art w in
      Ok (with_art
            {| pixels := Some pix;
               tempPixelWidth := tempPixelWidth a;
               tempPixelHeight := tempPixelHeight a;
               pixelWidth := pixelWidth a;
               pixelHeight := pixelHeight a;
               fileChangeCount := fileChangeCount a;
               imageSrc := imageSrc a;
               animation := animation a |} w)
  end.

End ImageLoad.

(** ** Mode transitions *)

(** [setAnimation(m)]. *)
Definition setAnimation (m : string) (w : World) : World :=
  let a := art w in
  with_art
    {| pixels := pixels a;
       tempPixelWidth := tempPixelWidth a;
       tempPixelHeight := tempPixelHeight a;
       pixelWidth := pixelWidth a;
       pixelHeight := pixelHeight a;
       fileChangeCount := fileChangeCount a;
       imageSrc := imageSrc a;
       animation := m |} w.

(** [setTimeout(() => setAnimation(m), delay)]: the timer joins the back of
    the pending list. *)
Definition setTimeout (m : string) (delay : Z) (w : World) : World :=
  {| art := art w;
     grid := grid w;
     timers := timers w ++ [ {| due := clock w + delay; mode := m |} ];
     clock := clock w |}.

(** Lines 305-315. *)
Definition controlExplosionAnimation (w : World) : World :=
  let w := setAnimation "explosion_start" w in
  let w := setTimeout "explosion_end" (ANIMATION_TIME * 1000) w in
  setTimeout "default" (ANIMATION_TIME * 2000) w.

(** Lines 321-329. *)
Definition controlWaveAnimation (w : World) : World :=
  let w := setAnimation "wave_start" w in
  let w := setTimeout "wave_end" (ANIMATION_TIME * 1000) w in
  setTimeout "default" (ANIMATION_TIME * 2000) w.

(** The pending timer that fires next: the earliest due, the one set first
    among equals; with it, the timers that stay pending. *)
Fixpoint nextTimer (pending : list Timer) : option (Timer * list Timer) :=
  match pending with
  | [] => None
  | t :: rest =>
      match nextTimer rest with
      | None => Some (t, [])
      | Some (t', rest') =>
          if due t <=? due t' then Some (t, rest) else Some (t', t :: rest')
      end
  end.

(** The event loop runs the next timer callback: the clock moves to the
    time the timer is due (never backwards) and the callback sets the mode. *)
Definition fireNext (w : World) : option World :=
  match nextTimer (timers w) with
  | None => None
  | Some (t, rest) =>
      Some (setAnimation (mode t)
              {| art := art w;
                 grid := grid w;
                 timers := rest;
                 clock := Z.max (clock w) (due t) |})
  end.

(** ** The sampler, cell by cell *)

(** The cell in column [x] of row [y] starts at this offset of the buffer. *)
Definition cell_offset (targetWidth y x : Z) : Z := 4 * (y * targetWidth + x).

(** The alpha byte of a cell, as captured in the buffer. *)
Definition cell_alpha (data : Uint8ClampedArray) (targetWidth y x : Z) : option Z :=
  byte_at data (cell_offset targetWidth y x + 3).

(** The record the sampler makes for a cell it keeps. *)
Definition cell_record (data : Uint8ClampedArray) (targetWidth targetHeight y x : Z)
  : PixelInfo :=
  let idx := cell_offset targetWidth y x in
  {| x := sub (ofZ x) (div (ofZ targetWidth) (ofZ 2));
     y := add (neg (ofZ y)) (div (ofZ targetHeight) (ofZ 2));
     z := ofZ 0;
     color := mkColor (div (ToNumber (byte_at data idx)) (ofZ 255))
                      (div (ToNumber (byte_at data (idx + 1))) (ofZ 255))
                      (div (ToNumber (byte_at data (idx + 2))) (ofZ 255)) |}.

(** Whether the test [a < 30] lets the cell through. *)
Definition kept (data : Uint8ClampedArray) (targetWidth y x : Z) : bool :=
  negb (lt (ToNumber (cell_alpha data targetWidth y x)) (ofZ 30)).

Definition emit (data : Uint8ClampedArray) (targetWidth targetHeight y x : Z)
  : list PixelInfo :=
  if kept data targetWidth y x then [cell_record data targetWidth targetHeight y x]
  else [].

Definition emit_row (data : Uint8ClampedArray) (targetWidth targetHeight y : Z)
  : list PixelInfo :=
  flat_map (emit data targetWidth targetHeight y) (indices targetWidth).

(** What [sample] returns for the buffer of a [W x H] grid. *)
Definition sampled_from (data : Uint8ClampedArray) (W H : Z) (pix : list PixelInfo)
  : Prop :=
  Z.of_nat (List.length pix) <= W * H
  /\ (forall p, In p pix ->
        exists row col a, 0 <= row < H /\ 0 <= col < W
                          /\ cell_alpha data W row col = Some a /\ 30 <= a
                          /\ p = cell_record data W H row col)
  /\ (forall row col a, 0 <= row < H -> 0 <= col < W ->
        cell_alpha data W row col = Some a -> a < 30 ->
        forall p, In p pix ->
          ~ (x p = x (cell_record data W H row col)
             /\ y p = y (cell_record data W H row col))).

(** ** Deciding equality of records *)

Definition number_eqb (a b : number) : bool :=
  match a, b with
  | NaN, NaN | PInf, PInf | NInf, NInf => true
  | Fin p, Fin q => Qeq_bool p q
  | _, _ => false
  end.

Definition Color_eqb (c d : Color) : bool :=
  number_eqb (r c) (r d) && number_eqb (g c) (g d) && number_eqb (b c) (b d).

Definition PixelInfo_eqb (p q : PixelInfo) : bool :=
  number_eqb (x p) (x q) && number_eqb (y p) (y q) && number_eqb (z p) (z q)
  && Color_eqb (color p) (color q).

Fixpoint pixels_eqb (ps qs : list PixelInfo) : bool :=
  match ps, qs with
  | [], [] => true
  | p :: ps', q :: qs' => PixelInfo_eqb p q && pixels_eqb ps' qs'
  | _, _ => false
  end.

(** ** Sample inputs *)

(** A context whose buffer is [buffer] whatever is drawn. *)
Definition canvas_of (buffer : Uint8ClampedArray) : CanvasRenderingContext2D unit :=
  {| drawImage_getImageData := fun _ _ _ => Ok {| data := buffer |} |}.

(** The same, except that [getImageData] refuses a width or a height of 0
    with an [IndexSizeError], as the canvas of a browser does. *)
Definition browser_canvas_of (buffer : Uint8ClampedArray) : CanvasRenderingContext2D unit :=
  {| drawImage_getImageData := fun _ sw sh =>
       if (sw =? 0) || (sh =? 0) then Throw "IndexSizeError"
       else Ok {| data := buffer |} |}.

(** The 2 x 2 image: opaque red, opaque green, opaque blue, transparent
    black, row by row. *)
Definition rgbt : Uint8ClampedArray :=
  [255; 0; 0; 255;   0; 255; 0; 255;
   0; 0; 255; 255;   0; 0; 0; 0].

(** A row of two opaque white cells. *)
Definition white_row : Uint8ClampedArray :=
  [255; 255; 255; 255;   255; 255; 255; 255].

(** ** Symmetry of positions *)

(** A collection of positions is symmetric about the origin when it holds
    the mirror image [-p] of each of its members. *)
Definition symmetric_about_origin (xs : list number) : Prop :=
  forall p, In p xs -> In (neg p) xs.

(** ** Reveal animation: batches *)

(** The cells of batch [batchIndex]: indices from [startIndex] up to
    [endIndex], as lines 88-89 compute them. *)
Definition in_batch (batchIndex pixelWidth : Z) (pixels : list PixelInfo) (i : Z) : Prop :=
  batchIndex * pixelWidth <= i
  < Z.min (batchIndex * pixelWidth + pixelWidth) (Z.of_nat (List.length pixels)).

(** ** A sample page *)

(** The page after the 2 x 2 image has been loaded at grid size 2 x 2:
    three cells, their meshes at rest, no effect under way. *)
Definition demo_pixels : list PixelInfo := sample rgbt 2 2.

Definition demo_world : World :=
  {| art := {| pixels := Some demo_pixels;
               tempPixelWidth := 2;
               tempPixelHeight := 2;
               pixelWidth := 2;
               pixelHeight := 2;
               fileChangeCount := 1;
               imageSrc := Some "data:image/png;base64,AAAA"%string;
               animation := "default" |};
     grid := PixelGrid_init demo_pixels "default" 1
               [ Vector3.make (ofZ 10) (ofZ (-20)) (ofZ 30);
                 Vector3.make (ofZ (-40)) (ofZ 5) (ofZ 0);
                 Vector3.make (ofZ 7) (ofZ 7) (ofZ (-7)) ]
               (Some (map (fun p => {| position := Vector3.make (x p) (y p) (z p) |})
                        demo_pixels));
     timers := [];
     clock := 0 |}.

(** ** Timers firing in turn *)

(** The mode changes made by the pending timers, in the order they fire,
    each with the time it happens; [fuel] bounds the number of firings. *)
Fixpoint firings (fuel : nat) (w : World) : list (Z * string) :=
  match fuel with
  | O => []
  | S fuel' =>
      match fireNext w with
      | None => []
      | Some w' => (clock w', animation (art w')) :: firings fuel' w'
      end
  end.

(** No callback sets a further timer, so one firing per pending timer
    exhausts them. *)
Definition pendingFirings (w : World) : list (Z * string) :=
  firings (List.length (timers w)) w.

(** How often a run of mode changes returns to idle. *)
Definition returnsToIdle (changes : list (Z * string)) : nat :=
  List.length (filter (fun change => (snd change =? "default")%string) changes).

(** ** The sampler: the grid in reading order *)

(** The cells of a [W x H] grid as pairs (row, column), row after row. *)
Definition grid_cells (W H : Z) : list (Z * Z) :=
  flat_map (fun row => map (pair row) (indices W)) (indices H).

Definition cell_kept (data : Uint8ClampedArray) (W : Z) (c : Z * Z) : bool :=
  kept data W (fst c) (snd c).

Definition record_of (data : Uint8ClampedArray) (W H : Z) (c : Z * Z) : PixelInfo :=
  cell_record data W H (fst c) (snd c).

(** Where a record puts its cube in the plane. *)
Definition place (p : PixelInfo) : number * number := (x p, y p).

(** A finite number between 0 and 1. *)
Definition in_unit_interval (v : number) : Prop :=
  (exists q, v = Fin q) /\ lt v (ofZ 0) = false /\ lt (ofZ 1) v = false.

(** What a [Uint8ClampedArray] holds: bytes. *)
Definition bytes (data : Uint8ClampedArray) : Prop :=
  Forall (fun v => 0 <= v <= 255) data.

(** ** The size fields *)

(** Lines 349 and 360: the [onChange] handlers of the two number inputs. *)
Definition setTempPixelWidth (v : Z) (w : World) : World :=
  let a := art w in
  with_art
    {| pixels := pixels a;
       tempPixelWidth := v;
       tempPixelHeight := tempPixelHeight a;
       pixelWidth := pixelWidth a;
       pixelHeight := pixelHeight a;
       fileChangeCount := fileChangeCount a;
       imageSrc := imageSrc a;
       animation := animation a |} w.

Definition setTempPixelHeight (v : Z) (w : World) : World :=
  let a := art w in
  with_art
    {| pixels := pixels a;
       tempPixelWidth := tempPixelWidth a;
       tempPixelHeight := v;
       pixelWidth := pixelWidth a;
       pixelHeight := pixelHeight a;
       fileChangeCount := fileChangeCount a;
       imageSrc := imageSrc a;
       animation := animation a |} w.

(** ** Scatter targets *)

Section Scatter.

(** [Math.random]: the value of the [n]-th call made while the targets are
    drawn. *)
Variable Math_random : nat -> number.

(** One coordinate, [(Math.random() - 0.5) * 100]. *)
Definition scatterCoordinate (call : nat) : number :=
  mul (sub (Math_random call) (Fin (Q2Qc (1 # 2)))) (ofZ 100).

(** Lines 112-116 and 121-125: one target per pixel, three draws each, in
    the order [x], [y], [z]. *)
Definition scatterPositions (pixels : list PixelInfo) : list Vector3.t :=
  map (fun i => Vector3.make (scatterCoordinate (3 * i))
                             (scatterCoordinate (3 * i + 1))
                             (scatterCoordinate (3 * i + 2)))
      (seq 0 (List.length pixels)).

(** The effect of lines 120-126; React runs it after a commit in which
    [pixels] changed. *)
Definition scatterEffect (w : World) : World :=
  match pixels (art w) with
  | None => w
  | Some pixels =>
      let g := grid w in
      with_grid
        {| scales := scales g;
           scaleProgressRef := scaleProgressRef g;
           batchIndexRef := batchIndexRef g;
           prevFileChangeCountRef := prevFileChangeCountRef g;
           lastAnimationRef := lastAnimationRef g;
           animationProgressRef := animationProgressRef g;
           scatterPositionsRef := scatterPositions pixels;
           groupRef := groupRef g |} w
  end.

End Scatter.

(** ** Finite quantities, elapsed time *)





(** The rest position of a cell. *)
Definition rest (p : PixelInfo) : Vector3.t := Vector3.make (x p) (y p) (z p).

(** ** Time passing *)

(** [d] ms go by without a timer firing. *)
Definition elapse (d : Z) (w : World) : World :=
  {| art := art w; grid := grid w; timers := timers w; clock := clock w + d |}.

(** ** Further sample pages *)



(** ** Finite positions *)



(** [demo_world] at the moment the end of an explosion begins: the mode is
    ["explosion_end"], the callback has seen it, no time has gone by. *)
Definition ending_world : World :=
  let w := setAnimation "explosion_end" demo_world in
  let g := grid w in
  with_grid
    {| scales := scales g;
       scaleProgressRef := scaleProgressRef g;
       batchIndexRef := batchIndexRef g;
       prevFileChangeCountRef := prevFileChangeCountRef g;
       lastAnimationRef := "explosion_end";
       animationProgressRef := ofZ 0;
       scatterPositionsRef := scatterPositionsRef g;
       groupRef := groupRef g |} w.

(** [ending_world] with its scatter targets lost. *)
Definition targetless_world : World :=
  let g := grid ending_world in
  with_grid
    {| scales := scales g;
       scaleProgressRef := scaleProgressRef g;
       batchIndexRef := batchIndexRef g;
       prevFileChangeCountRef := prevFileChangeCountRef g;
       lastAnimationRef := lastAnimationRef g;
       animationProgressRef := animationProgressRef g;
       scatterPositionsRef := [];
       groupRef := groupRef g |} ending_world.

(** ** Binary64 *)

Module Binary64.

(** The binary64 value of a positive integer: exact below [2^53], which
    bounds every array length and every counter of the page. *)
Fixpoint of_pos (p : positive) : float :=
  match p with
  | xH => 1%float
  | xO q => (2 * of_pos q)%float
  | xI q => (2 * of_pos q + 1)%float
  end.

Definition ofZ (n : Z) : float :=
  match n with
  | Z0 => 0%float
  | Zpos p => of_pos p
  | Zneg p => (- of_pos p)%float
  end.

End Binary64.

(** ** The reveal animation, render by render

    Lines 36-100 of [PixelGrid] with the arithmetic and the closures of the
    program.  The accumulator, the batch count and the threshold are
    binary64 values, rounded and compared as JavaScript does it.  The
    effect and the frame callback are created by a render of the component
    and read the props and the [scales] of that render; the refs they read
    at the time they run.  [setScales] stores an array that a callback sees
    once React has rendered the component again. *)

Module Render.

(** The props read by lines 59-100. *)
Record Props : Type := {
  pixelWidth : Z;
  pixelHeight : Z;
  pixels : list PixelInfo;
  fileChangeCount : Z
}.

(** What the component keeps between renders: the state slot behind
    [useState] and the three refs. *)
Record Hooks : Type := {
  scalesState : JsArray.array Z;
  scaleProgressRef : float;
  batchIndexRef : Z;
  prevFileChangeCountRef : Z
}.

(** One render of the component: the props it was called with and the
    constant [scales] that [useState] handed it. *)
Record Rendering : Type := {
  props : Props;
  scales : JsArray.array Z
}.

(** Lines 50-56, on the first render. *)
Definition mount (p : Props) : Hooks :=
  {| scalesState := JsArray.fill (List.length (pixels p)) 0;
     scaleProgressRef := 0%float;
     batchIndexRef := 0;
     prevFileChangeCountRef := fileChangeCount p |}.

(** The component function called with props [p]. *)
Definition render (p : Props) (h : Hooks) : Rendering :=
  {| props := p; scales := scalesState h |}.

(** The effect of lines 59-69, as created by the render [r].  React runs it
    after a commit in which one of [fileChangeCount], [pixels.length],
    [pixelWidth], [pixelHeight] changed. *)
Definition resetEffect (r : Rendering) (h : Hooks) : Hooks :=
  if negb (fileChangeCount (props r) =? prevFileChangeCountRef h) then
    {| scalesState := JsArray.fill (List.length (pixels (props r))) 0;
       scaleProgressRef := 0%float;
       batchIndexRef := 0;
       prevFileChangeCountRef := fileChangeCount (props r) |}
  else h.

(** The first [useFrame] callback, lines 72-100, as created by the render
    [r]. *)
Definition revealFrame (r : Rendering) (delta : float) (h : Hooks) : Hooks :=
  let pixels := pixels (props r) in
  let pixelWidth := pixelWidth (props r) in
  let length := Z.of_nat (List.length pixels) in
  if (Binary64.ofZ length / Binary64.ofZ pixelWidth <? Binary64.ofZ (batchIndexRef h))%float
  then h
  else
    let scaleProgress := (scaleProgressRef h + delta)%float in
    let threshold :=
      (Binary64.ofZ (batchIndexRef h)
       * (Binary64.ofZ ANIMATION_TIME / (Binary64.ofZ length / Binary64.ofZ pixelWidth)))%float in
    if (threshold <? scaleProgress)%float then
      let newScales := scales r in
      let startIndex := batchIndexRef h * pixelWidth in
      let endIndex := Z.min (startIndex + pixelWidth) length in
      let newScales :=
        for_range startIndex endIndex (fun i newScales => JsArray.set newScales i 1) newScales in
      {| scalesState := newScales;
         scaleProgressRef := scaleProgress;
         batchIndexRef := batchIndexRef h + 1;
         prevFileChangeCountRef := prevFileChangeCountRef h |}
    else
      {| scalesState := scalesState h;
         scaleProgressRef := scaleProgress;
         batchIndexRef := batchIndexRef h;
         prevFileChangeCountRef := prevFileChangeCountRef h |}.

(** The mounted component: its hooks, and the render that is on screen and
    whose callbacks are installed. *)
Record Mounted : Type := {
  hooks : Hooks;
  rendering : Rendering
}.

(** What happens to a mounted grid: React renders it with the props the
    page passes and commits, or the canvas runs a frame. *)
Inductive Event : Type :=
| Commit (p : Props)
| Frame (delta : float).

(** The first render and commit; the reset effect runs and finds the
    counter it was mounted with. *)
Definition mounted (p : Props) : Mounted :=
  let r := render p (mount p) in
  {| hooks := resetEffect r (mount p); rendering := r |}.

(** A commit runs the effect of the new render.  (With its dependencies
    unchanged React skips the effect; the counter then equals the ref, and
    running the effect changes nothing.) *)
Definition step (m : Mounted) (e : Event) : Mounted :=
  match e with
  | Commit p =>
      let r := render p (hooks m) in
      {| hooks := resetEffect r (hooks m); rendering := r |}
  | Frame delta =>
      {| hooks := revealFrame (rendering m) delta (hooks m);
         rendering := rendering m |}
  end.

Definition run (events : list Event) (m : Mounted) : Mounted :=
  fold_left step events m.

(** [scales[i]], the scale line 207 passes to the box of cell [i]. *)
Definition shown (m : Mounted) (i : Z) : option Z :=
  JsArray.get (scales (rendering m)) i.

End Render.

(** The props the page passes to [PixelGrid] (lines 402-408) when its
    [pixels] are [ps]. *)
Definition PixelGrid_props (a : PixelArtState) (ps : list PixelInfo) : Render.Props :=
  {| Render.pixelWidth := pixelWidth a;
     Render.pixelHeight := pixelHeight a;
     Render.pixels := ps;
     Render.fileChangeCount := fileChangeCount a |}.

(** ** Further sample inputs *)

(** The buffer of an image of [cells] opaque white cells. *)
Definition white (cells : nat) : Uint8ClampedArray := repeat 255 (4 * cells)%nat.

(** [n] frames of a sixty-fourth of a second on a grid that keeps the props
    [p], each followed by the render that a [setScales] asks for. *)
Definition sixty_fourths (n : nat) (p : Render.Props) : list Render.Event :=
  flat_map (fun _ => [Render.Frame 0.015625%float; Render.Commit p]) (seq 0 n).

(** A column of 94 opaque cells, sampled at 1 x 94: 94 batches of one cell. *)
Definition column_props : Render.Props :=
  {| Render.pixelWidth := 1;
     Render.pixelHeight := 94;
     Render.pixels := sample (white 94) 1 94;
     Render.fileChangeCount := 1 |}.

(** The column after 95 frames, half way through its reveal. *)
Definition column_half_way : Render.Mounted :=
  Render.run (sixty_fourths 95 column_props) (Render.mounted column_props).

(** ** A reload at another size *)

(** The page of [demo_world], its three cells shown, after the size fields
    were edited to 4 x 1 and reload pressed (lines 279-283). *)
Definition resized_world : World :=
  reloadImage (setTempPixelHeight 1 (setTempPixelWidth 4 demo_world)).

(** The image effect has run (lines 288-299): the counter has moved on and
    the image is loading. *)
Definition reloading_world : World := fst (imageEffect resized_world).

(** The records of the image, four opaque cells when sampled at 4 x 1. *)
Definition wide_pixels : list PixelInfo := sample (white 4) 4 1.

(** What the grid of that page goes through, from its mount on. *)
Section Reload.

(** The records that the reload delivers. *)
Variable loaded : list PixelInfo.

(** Two seconds and a little more: the three cells are revealed, in two
    batches. *)
Definition reveal_events : list Render.Event :=
  sixty_fourths 130 (PixelGrid_props (art demo_world) demo_pixels).

(** The new size, then the new counter, reach the grid, which still holds
    the old records; the effect stores an array, and React renders the grid
    once more. *)
Definition reset_events : list Render.Event :=
  [ Render.Commit (PixelGrid_props (art resized_world) demo_pixels);
    Render.Commit (PixelGrid_props (art reloading_world) demo_pixels);
    Render.Commit (PixelGrid_props (art reloading_world) demo_pixels) ].

(** Two frames pass while the image loads. *)
Definition loading_events : list Render.Event :=
  sixty_fourths 2 (PixelGrid_props (art reloading_world) demo_pixels).

(** [img.onload] has called [setPixels]. *)
Definition arrival_events : list Render.Event :=
  [ Render.Commit (PixelGrid_props (art reloading_world) loaded) ].

(** The frames of the three seconds that follow, and a few more. *)
Definition closing_events : list Render.Event :=
  sixty_fourths 200 (PixelGrid_props (art reloading_world) loaded).

End Reload.

(** The grid of [demo_world] as mounted. *)
Definition demo_grid : Render.Mounted :=
  Render.mounted (PixelGrid_props (art demo_world) demo_pixels).

(** * Properties *)

(** ** Numbers *)

Lemma ofZ_inj (a b : Z) : ofZ a = ofZ b -> a = b.
Proof.
  unfold ofZ. intros E.
  apply (f_equal (fun n => match n with Fin q => q | _ => Q2Qc 0 end)) in E.
  apply Q2Qc_eq_iff in E. exact (proj1 (inject_Z_injective a b) E).
Qed.

Lemma lt_ofZ (a b : Z) : lt (ofZ a) (ofZ b) = (a <? b).
Proof.
  unfold lt, ofZ, Qccompare. cbn [this Q2Qc].
  rewrite <- Qred_compare. unfold Qcompare, inject_Z. cbn [Qnum Qden].
  rewrite !Z.mul_1_r. unfold Z.ltb. reflexivity.
Qed.

Lemma is_zero_ofZ (n : Z) : is_zero (Q2Qc (inject_Z n)) = (n =? 0).
Proof.
  unfold is_zero, Qc_eq_bool.
  destruct (Qc_eq_dec (Q2Qc (inject_Z n)) (Q2Qc 0)) as [E | E].
  - apply Q2Qc_eq_iff in E. change 0%Q with (inject_Z 0) in E.
    apply (proj1 (inject_Z_injective n 0)) in E. subst. reflexivity.
  - symmetry. apply Z.eqb_neq. intros ->. now apply E.
Qed.

(** Dividing an integer by a non-zero integer stays finite. *)
Lemma div_ofZ (a b : Z) :
  b <> 0 -> div (ofZ a) (ofZ b) = Fin (Q2Qc (inject_Z a) / Q2Qc (inject_Z b))%Qc.
Proof.
  intros Hb. unfold div, ofZ. rewrite is_zero_ofZ.
  apply Z.eqb_neq in Hb. now rewrite Hb.
Qed.

Lemma Qc_add_cancel_r (p q c : Qc) : (p + c = q + c)%Qc -> p = q.
Proof.
  intros E.
  assert (E' : (p + c - c = q + c - c)%Qc) by now rewrite E.
  now ring_simplify in E'.
Qed.

Lemma Qc_opp_inj (p q : Qc) : (- p = - q)%Qc -> p = q.
Proof.
  intros E. rewrite <- (Qcopp_involutive p), <- (Qcopp_involutive q). now rewrite E.
Qed.

(** ** Loops *)

Lemma indices_In (n i : Z) : In i (indices n) <-> 0 <= i < n.
Proof.
  unfold indices. rewrite in_map_iff. split.
  - intros (k & <- & Hk). apply in_seq in Hk. lia.
  - intros Hi. exists (Z.to_nat i). split; [lia |]. apply in_seq. lia.
Qed.

Lemma indices_length (n : Z) : List.length (indices n) = Z.to_nat n.
Proof. unfold indices. now rewrite length_map, length_seq. Qed.

Lemma indices_succ (n : Z) : 0 <= n -> indices (n + 1) = indices n ++ [n].
Proof.
  intros Hn. unfold indices.
  replace (Z.to_nat (n + 1)) with (S (Z.to_nat n)) by lia.
  rewrite seq_S, map_app. cbn. now rewrite Z2Nat.id.
Qed.

Lemma indices_nonpos (n : Z) : n <= 0 -> indices n = [].
Proof. intros Hn. unfold indices. now replace (Z.to_nat n) with O by lia. Qed.

Lemma for_range_0 {S : Type} (n : Z) (body : Z -> S -> S) (s : S) :
  for_range 0 n body s = fold_left (fun s i => body i s) (indices n) s.
Proof.
  unfold for_range. rewrite Z.sub_0_r.
  generalize (indices n) as l. intros l. revert s.
  induction l as [| i l IH]; intros s; cbn; [reflexivity | apply IH].
Qed.

(** Induction over a loop bound, one more iteration at a time. *)
Lemma for_range_0_succ {S : Type} (n : Z) (body : Z -> S -> S) (s : S) :
  0 <= n -> for_range 0 (n + 1) body s = body n (for_range 0 n body s).
Proof.
  intros Hn. rewrite !for_range_0, indices_succ by assumption.
  now rewrite fold_left_app.
Qed.

Lemma for_range_0_nonpos {S : Type} (n : Z) (body : Z -> S -> S) (s : S) :
  n <= 0 -> for_range 0 n body s = s.
Proof. intros Hn. now rewrite for_range_0, indices_nonpos. Qed.

(** ** The sampler: what the loops compute *)

Lemma sample_cell_emit data W H y x result :
  sample_cell data W H y x (cell_offset W y x, result)
  = (cell_offset W y x + 4, result ++ emit data W H y x).
Proof.
  unfold sample_cell, emit, kept, cell_alpha, cell_record.
  destruct (lt _ _); cbn [negb]; [now rewrite app_nil_r | reflexivity].
Qed.

(** The inner loop, run up to column [n] of row [y]. *)
Lemma inner_loop data W H y result (n : Z) :
  0 <= n ->
  for_range 0 n (sample_cell data W H y) (cell_offset W y 0, result)
  = (cell_offset W y n,
     result ++ flat_map (emit data W H y) (indices n)).
Proof.
  intros Hn. pattern n. apply natlike_ind; [| | exact Hn]; clear n Hn.
  - rewrite for_range_0_nonpos by lia. cbn. now rewrite app_nil_r.
  - intros n Hn IH. change (Z.succ n) with (n + 1).
    rewrite for_range_0_succ, IH, sample_cell_emit by assumption.
    rewrite indices_succ, flat_map_app by assumption. cbn [flat_map].
    rewrite app_nil_r, <- app_assoc. f_equal. unfold cell_offset. lia.
Qed.

(** The outer loop, run up to row [n]. *)
Lemma outer_loop data W H (n : Z) :
  0 <= W -> 0 <= n ->
  for_range 0 n
    (fun y st => for_range 0 W (sample_cell data W H y) st) (0, [])
  = (cell_offset W n 0, flat_map (emit_row data W H) (indices n)).
Proof.
  intros HW Hn. pattern n. apply natlike_ind; [| | exact Hn]; clear n Hn.
  - now rewrite for_range_0_nonpos by lia.
  - intros n Hn IH. change (Z.succ n) with (n + 1).
    rewrite for_range_0_succ, IH, inner_loop by assumption.
    rewrite indices_succ, flat_map_app by assumption. cbn [flat_map].
    rewrite app_nil_r. f_equal. unfold cell_offset. lia.
Qed.

(** The records come out row by row, each kept cell giving one. *)
Lemma sample_rows data W H :
  0 <= W -> sample data W H = flat_map (emit_row data W H) (indices H).
Proof.
  intros HW. unfold sample.
  destruct (Z.le_gt_cases 0 H) as [HH | HH].
  - now rewrite outer_loop.
  - now rewrite for_range_0_nonpos, indices_nonpos by lia.
Qed.

Lemma sample_In data W H p :
  0 <= W ->
  In p (sample data W H) <->
  exists y x, 0 <= y < H /\ 0 <= x < W /\
              kept data W y x = true /\ p = cell_record data W H y x.
Proof.
  intros HW. rewrite sample_rows by assumption. rewrite in_flat_map. split.
  - intros (y & Hy & Hp). unfold emit_row in Hp. apply in_flat_map in Hp.
    destruct Hp as (x & Hx & Hp). unfold emit in Hp.
    destruct (kept data W y x) eqn:K; [| contradiction].
    destruct Hp as [<- | []]. exists y, x.
    apply indices_In in Hy. apply indices_In in Hx. auto.
  - intros (y & x & Hy & Hx & K & ->). exists y. split; [now apply indices_In |].
    unfold emit_row. apply in_flat_map. exists x. split; [now apply indices_In |].
    unfold emit. rewrite K. now left.
Qed.

Lemma flat_map_length_le {A B : Type} (f : A -> list B) (k : nat) (l : list A) :
  (forall a, List.length (f a) <= k)%nat ->
  (List.length (flat_map f l) <= List.length l * k)%nat.
Proof.
  intros Hf. induction l as [| a l IH]; cbn; [lia |].
  rewrite length_app. specialize (Hf a). lia.
Qed.

Lemma sample_length data W H :
  0 <= W -> 0 <= H -> Z.of_nat (List.length (sample data W H)) <= W * H.
Proof.
  intros HW HH. rewrite sample_rows by assumption.
  assert (L : (List.length (flat_map (emit_row data W H) (indices H))
               <= List.length (indices H) * Z.to_nat W)%nat).
  { apply flat_map_length_le. intros y. unfold emit_row.
    rewrite <- (Nat.mul_1_r (Z.to_nat W)), <- indices_length.
    apply flat_map_length_le. intros x. unfold emit.
    destruct (kept _ _ _ _); cbn; lia. }
  rewrite indices_length in L. nia.
Qed.

(** A buffer of [4 * W * H] bytes has an alpha byte for every cell. *)
Lemma cell_alpha_defined data W H y x :
  Z.of_nat (List.length data) = 4 * W * H ->
  0 <= y < H -> 0 <= x < W ->
  exists a, cell_alpha data W y x = Some a.
Proof.
  intros Hlen Hy Hx. unfold cell_alpha, byte_at, cell_offset.
  destruct (Z.ltb_spec (4 * (y * W + x) + 3) 0) as [? | _]; [nia |].
  destruct (nth_error data (Z.to_nat (4 * (y * W + x) + 3))) as [a |] eqn:E.
  - now exists a.
  - apply nth_error_None in E. nia.
Qed.

Lemma kept_alpha data W y x a :
  cell_alpha data W y x = Some a -> kept data W y x = (30 <=? a).
Proof.
  intros E. unfold kept. rewrite E. cbn [ToNumber]. rewrite lt_ofZ.
  destruct (Z.ltb_spec a 30), (Z.leb_spec 30 a); cbn; try reflexivity; lia.
Qed.

Lemma Fin_inj (p q : Qc) : Fin p = Fin q -> p = q.
Proof.
  intros E.
  exact (f_equal (fun n => match n with Fin c => c | _ => p end) E).
Qed.

(** Distinct columns get distinct [x], distinct rows distinct [y]. *)
Lemma centred_x_inj (W x1 x2 : Z) :
  sub (ofZ x1) (div (ofZ W) (ofZ 2)) = sub (ofZ x2) (div (ofZ W) (ofZ 2)) ->
  x1 = x2.
Proof.
  rewrite div_ofZ by lia. unfold sub, add, neg. cbn [ofZ].
  intros E. apply Fin_inj, Qc_add_cancel_r in E.
  apply ofZ_inj. unfold ofZ. now rewrite E.
Qed.

Lemma centred_y_inj (H y1 y2 : Z) :
  add (neg (ofZ y1)) (div (ofZ H) (ofZ 2)) = add (neg (ofZ y2)) (div (ofZ H) (ofZ 2)) ->
  y1 = y2.
Proof.
  rewrite div_ofZ by lia. unfold add, neg. cbn [ofZ].
  intros E. apply Fin_inj, Qc_add_cancel_r, Qc_opp_inj in E.
  apply ofZ_inj. unfold ofZ. now rewrite E.
Qed.

Lemma sample_sampled_from (data : Uint8ClampedArray) (W H : Z) :
  0 <= W -> 0 <= H ->
  Z.of_nat (List.length data) = 4 * W * H ->
  sampled_from data W H (sample data W H).
Proof.
  intros HW HH Hlen. split; [now apply sample_length |]. split.
  - intros p Hp. apply sample_In in Hp; [| assumption].
    destruct Hp as (row & col & Hy & Hx & K & ->).
    destruct (cell_alpha_defined data W H row col Hlen Hy Hx) as (a & Ha).
    exists row, col, a. rewrite (kept_alpha _ _ _ _ _ Ha) in K.
    apply Z.leb_le in K. auto.
  - intros row col a Hy Hx Ha Hlow p Hp [Ex Ey].
    apply sample_In in Hp; [| assumption].
    destruct Hp as (row' & col' & _ & _ & K & ->).
    cbn [cell_record x y] in Ex, Ey.
    apply centred_x_inj in Ex. apply centred_y_inj in Ey. subst row' col'.
    rewrite (kept_alpha _ _ _ _ _ Ha) in K. apply Z.leb_le in K. lia.
Qed.

(** ** The sampler: claims *)

Section SamplerClaims.

Variable HTMLImageElement : Type.
Variable getContext : Z -> Z -> option (CanvasRenderingContext2D HTMLImageElement).

(** C1. For every image and every grid size [W x H], when the canvas
    yields a context and [getImageData] returns the [4 * W * H] bytes of
    the grid, [createPixelData] returns records, at most [W * H] of them;
    every record is the one made for a cell of the grid whose captured
    alpha is at least 30; and a cell whose alpha is below 30 is dropped: no
    record sits at its position. *)
Theorem createPixelData_keeps_opaque_cells
    (img : HTMLImageElement) (W H : Z) (ctx : CanvasRenderingContext2D HTMLImageElement)
    (imgData : ImageData) :
  0 <= W -> 0 <= H ->
  getContext W H = Some ctx ->
  drawImage_getImageData ctx img W H = Ok imgData ->
  Z.of_nat (List.length (data imgData)) = 4 * W * H ->
  let data := data imgData in
  exists pix,
    createPixelData getContext img W H = Ok pix
    /\ Z.of_nat (List.length pix) <= W * H
    /\ (forall p, In p pix ->
          exists row col a, 0 <= row < H /\ 0 <= col < W
                            /\ cell_alpha data W row col = Some a /\ 30 <= a
                            /\ p = cell_record data W H row col)
    /\ (forall row col a, 0 <= row < H -> 0 <= col < W ->
          cell_alpha data W row col = Some a -> a < 30 ->
          forall p, In p pix ->
            ~ (x p = x (cell_record data W H row col)
               /\ y p = y (cell_record data W H row col))).
Proof.
  intros HW HH Hctx Hdraw Hlen. unfold createPixelData. rewrite Hctx, Hdraw.
  eexists. split; [reflexivity |]. now apply sample_sampled_from.
Qed.

End SamplerClaims.


Lemma createPixelData_keeps_opaque_cells_witness :
  exists pix,
    createPixelData (fun _ _ => Some (canvas_of rgbt)) tt 2 2 = Ok pix
    /\ Z.of_nat (List.length pix) <= 2 * 2.
Proof.
  destruct (createPixelData_keeps_opaque_cells unit
              (fun _ _ => Some (canvas_of rgbt)) tt 2 2 (canvas_of rgbt)
              {| data := rgbt |}
              ltac:(lia) ltac:(lia) eq_refl eq_refl eq_refl)
    as (pix & E & L & _).
  exists pix. split; assumption.
Defined.

(** ** Equality of computed records *)

Lemma number_eqb_eq (a b : number) : number_eqb a b = true -> a = b.
Proof.
  destruct a as [| | | p], b as [| | | q]; cbn; try discriminate; try reflexivity.
  intros E. apply Qeq_bool_eq in E. f_equal. now apply Qc_is_canon.
Qed.

Lemma Color_eqb_eq (c d : Color) : Color_eqb c d = true -> c = d.
Proof.
  destruct c, d. unfold Color_eqb. cbn. intros E.
  apply andb_prop in E. destruct E as [E E3].
  apply andb_prop in E. destruct E as [E1 E2].
  apply number_eqb_eq in E1, E2, E3. now subst.
Qed.

Lemma PixelInfo_eqb_eq (p q : PixelInfo) : PixelInfo_eqb p q = true -> p = q.
Proof.
  destruct p, q. unfold PixelInfo_eqb. cbn. intros E.
  apply andb_prop in E. destruct E as [E E4].
  apply andb_prop in E. destruct E as [E E3].
  apply andb_prop in E. destruct E as [E1 E2].
  apply number_eqb_eq in E1, E2, E3. apply Color_eqb_eq in E4. now subst.
Qed.

Lemma pixels_eqb_eq (ps qs : list PixelInfo) : pixels_eqb ps qs = true -> ps = qs.
Proof.
  revert qs. induction ps as [| p ps IH]; intros [| q qs]; cbn;
    try discriminate; try reflexivity.
  intros E. apply andb_prop in E. destruct E as [E1 E2].
  apply PixelInfo_eqb_eq in E1. apply IH in E2. now subst.
Qed.

Section SamplerExample.

Variable HTMLImageElement : Type.
Variable getContext : Z -> Z -> option (CanvasRenderingContext2D HTMLImageElement).

(** C3. For the 2 x 2 image of opaque red, opaque green, opaque blue and
    transparent black, [createPixelData] returns exactly three records: the
    transparent cell is dropped, and the red, green and blue cells carry the
    colors (1,0,0), (0,1,0) and (0,0,1). *)
Theorem createPixelData_red_green_blue
    (img : HTMLImageElement) (ctx : CanvasRenderingContext2D HTMLImageElement) :
  getContext 2 2 = Some ctx ->
  drawImage_getImageData ctx img 2 2 = Ok {| data := rgbt |} ->
  createPixelData getContext img 2 2
  = Ok [ {| x := ofZ (-1); y := ofZ 1; z := ofZ 0;
            color := mkColor (ofZ 1) (ofZ 0) (ofZ 0) |};
         {| x := ofZ 0; y := ofZ 1; z := ofZ 0;
            color := mkColor (ofZ 0) (ofZ 1) (ofZ 0) |};
         {| x := ofZ (-1); y := ofZ 0; z := ofZ 0;
            color := mkColor (ofZ 0) (ofZ 0) (ofZ 1) |} ].
Proof.
  intros Hctx Hdraw. unfold createPixelData. rewrite Hctx, Hdraw.
  f_equal. apply pixels_eqb_eq. vm_compute. reflexivity.
Qed.

End SamplerExample.

Lemma createPixelData_red_green_blue_witness :
  exists pix,
    createPixelData (fun _ _ => Some (canvas_of rgbt)) tt 2 2 = Ok pix
    /\ List.length pix = 3%nat
    /\ map color pix = [ mkColor (ofZ 1) (ofZ 0) (ofZ 0);
                         mkColor (ofZ 0) (ofZ 1) (ofZ 0);
                         mkColor (ofZ 0) (ofZ 0) (ofZ 1) ].
Proof.
  eexists. split.
  - exact (createPixelData_red_green_blue unit
             (fun _ _ => Some (canvas_of rgbt)) tt (canvas_of rgbt) eq_refl eq_refl).
  - split; reflexivity.
Defined.

Lemma number_eqb_refl (a : number) : number_eqb a a = true.
Proof. destruct a; cbn; try reflexivity. apply Qeq_bool_refl. Qed.

Lemma number_eqb_neq (a b : number) : number_eqb a b = false -> a <> b.
Proof. intros E ->. rewrite number_eqb_refl in E. discriminate. Qed.

(** C2. The sampler on a full row of two opaque cells (a 2 x 1 image,
    sampled at 2 x 1): the records sit at [x = -1] and [x = 0].  The
    emitted positions are not symmetric about the origin: -1 is there and
    its mirror image 1 is not, and the two positions have their middle at
    -1/2.  The unit cube of a record is centred on its position (lines
    225-226), so the row of cubes covers [-3/2, 1/2]. *)
Theorem full_row_not_symmetric_about_origin :
  exists pix,
    createPixelData (fun _ _ => Some (browser_canvas_of white_row)) tt 2 1 = Ok pix
    /\ map x pix = [ofZ (-1); ofZ 0]
    /\ In (ofZ (-1)) (map x pix)
    /\ ~ In (neg (ofZ (-1))) (map x pix)
    /\ ~ symmetric_about_origin (map x pix)
    /\ div (fold_right add (ofZ 0) (map x pix)) (ofZ 2) = Fin (Q2Qc (-1 # 2)).
Proof.
  eexists. split; [reflexivity |].
  assert (E : map x (sample white_row 2 1) = [ofZ (-1); ofZ 0]).
  { replace (sample white_row 2 1)
      with [ {| x := ofZ (-1); y := add (neg (ofZ 0)) (div (ofZ 1) (ofZ 2)); z := ofZ 0;
                color := mkColor (ofZ 1) (ofZ 1) (ofZ 1) |};
             {| x := ofZ 0; y := add (neg (ofZ 0)) (div (ofZ 1) (ofZ 2)); z := ofZ 0;
                color := mkColor (ofZ 1) (ofZ 1) (ofZ 1) |} ].
    - reflexivity.
    - symmetry. apply pixels_eqb_eq. vm_compute. reflexivity. }
  cbn [data]. rewrite E.
  assert (Hmissing : ~ In (neg (ofZ (-1))) [ofZ (-1); ofZ 0]).
  { intros [S | [S | []]]; revert S; apply number_eqb_neq; vm_compute; reflexivity. }
  split; [reflexivity |]. split; [now left |]. split; [exact Hmissing |]. split.
  - intros S. apply Hmissing, S. now left.
  - apply number_eqb_eq. vm_compute. reflexivity.
Qed.

Section SamplerTwice.

Variable HTMLImageElement : Type.
Variable getContext : Z -> Z -> option (CanvasRenderingContext2D HTMLImageElement).

(** C4. Two invocations of [createPixelData] that get the same per-cell
    RGBA data for the same width and height return the same records. *)
Theorem createPixelData_same_data_same_records
    (getContext' : Z -> Z -> option (CanvasRenderingContext2D HTMLImageElement))
    (img img' : HTMLImageElement) (W H : Z)
    (ctx ctx' : CanvasRenderingContext2D HTMLImageElement)
    (imgData imgData' : ImageData) :
  getContext W H = Some ctx ->
  getContext' W H = Some ctx' ->
  drawImage_getImageData ctx img W H = Ok imgData ->
  drawImage_getImageData ctx' img' W H = Ok imgData' ->
  data imgData = data imgData' ->
  exists pix,
    createPixelData getContext img W H = Ok pix
    /\ createPixelData getContext' img' W H = Ok pix.
Proof.
  intros Hctx Hctx' Hdraw Hdraw' Hdata. unfold createPixelData.
  rewrite Hctx, Hctx', Hdraw, Hdraw'. cbv zeta. rewrite Hdata.
  eexists. split; reflexivity.
Qed.

End SamplerTwice.

Lemma createPixelData_same_data_same_records_witness :
  exists pix,
    createPixelData (fun _ _ => Some (canvas_of rgbt)) tt 2 2 = Ok pix
    /\ createPixelData (fun _ _ => Some (canvas_of rgbt)) tt 2 2 = Ok pix.
Proof.
  exact (createPixelData_same_data_same_records unit
           (fun _ _ => Some (canvas_of rgbt)) (fun _ _ => Some (canvas_of rgbt))
           tt tt 2 2 (canvas_of rgbt) (canvas_of rgbt)
           {| data := rgbt |} {| data := rgbt |}
           eq_refl eq_refl eq_refl eq_refl eq_refl).
Defined.

(** ** Failures *)



(** ** Arrays *)

Lemma set_nat_nth {A} (arr : JsArray.array A) (i j : nat) (v : A) :
  match nth_error (JsArray.set_nat arr i v) j with Some slot => slot | None => None end
  = if Nat.eqb j i then Some v
    else match nth_error arr j with Some slot => slot | None => None end.
Proof.
  revert arr j. induction i as [| i IH]; intros arr j.
  - destruct arr as [| slot rest], j as [| j]; cbn; try reflexivity.
    now destruct j.
  - destruct arr as [| slot rest], j as [| j]; cbn; try reflexivity.
    + rewrite IH. destruct (Nat.eqb j i); [reflexivity | now destruct j].
    + apply IH.
Qed.

Lemma get_set {A} (arr : JsArray.array A) (i j : Z) (v : A) :
  0 <= j ->
  JsArray.get (JsArray.set arr i v) j
  = if j =? i then Some v else JsArray.get arr j.
Proof.
  intros Hj. unfold JsArray.get, JsArray.set.
  destruct (Z.ltb_spec j 0) as [? | _]; [lia |].
  destruct (Z.ltb_spec i 0) as [Hi | Hi].
  - destruct (Z.eqb_spec j i); [lia | reflexivity].
  - rewrite set_nat_nth.
    destruct (Z.eqb_spec j i) as [-> | Hne].
    + now rewrite Nat.eqb_refl.
    + destruct (Nat.eqb_spec (Z.to_nat j) (Z.to_nat i)); [lia | reflexivity].
Qed.

Lemma get_fill {A} (n : nat) (v : A) (i : Z) :
  JsArray.get (JsArray.fill n v) i
  = if (0 <=? i) && (i <? Z.of_nat n) then Some v else None.
Proof.
  unfold JsArray.get, JsArray.fill.
  destruct (Z.ltb_spec i 0) as [Hi | Hi].
  - destruct (Z.leb_spec 0 i); [lia | reflexivity].
  - destruct (Z.leb_spec 0 i); [| lia]. cbn [andb].
    destruct (Z.ltb_spec i (Z.of_nat n)) as [Hn | Hn].
    + rewrite nth_error_repeat by lia. reflexivity.
    + destruct (nth_error (repeat (Some v) n) (Z.to_nat i)) eqn:E; [| reflexivity].
      assert (Hlt : (Z.to_nat i < List.length (repeat (Some v) n))%nat).
      { apply nth_error_Some. now rewrite E. }
      rewrite repeat_length in Hlt. lia.
Qed.

Lemma for_range_empty {S : Type} (from to : Z) (body : Z -> S -> S) (s : S) :
  to <= from -> for_range from to body s = s.
Proof. intros H. unfold for_range. now rewrite indices_nonpos by lia. Qed.

Lemma for_range_succ {S : Type} (from to : Z) (body : Z -> S -> S) (s : S) :
  from <= to ->
  for_range from (to + 1) body s = body to (for_range from to body s).
Proof.
  intros H. unfold for_range.
  replace (to + 1 - from) with (to - from + 1) by lia.
  rewrite indices_succ, fold_left_app by lia. cbn.
  now replace (from + (to - from)) with to by lia.
Qed.

(** The loop of lines 92-94 sets the slots from [from] up to [to] and no
    other. *)
Lemma reveal_loop_get (scales : JsArray.array Z) (from to j : Z) :
  0 <= j ->
  JsArray.get (for_range from to (fun i newScales => JsArray.set newScales i 1) scales) j
  = if (from <=? j) && (j <? to) then Some 1 else JsArray.get scales j.
Proof.
  intros Hj. destruct (Z.le_gt_cases to from) as [Hle | Hgt].
  - rewrite for_range_empty by assumption.
    destruct (Z.leb_spec from j), (Z.ltb_spec j to); cbn; try reflexivity; lia.
  - replace to with (from + Z.of_nat (Z.to_nat (to - from))) by lia.
    induction (Z.to_nat (to - from)) as [| n IH].
    + rewrite for_range_empty by lia.
      destruct (Z.leb_spec from j), (Z.ltb_spec j (from + Z.of_nat 0));
        cbn; try reflexivity; lia.
    + replace (from + Z.of_nat (S n)) with (from + Z.of_nat n + 1) by lia.
      rewrite for_range_succ, get_set, IH by lia.
      destruct (Z.eqb_spec j (from + Z.of_nat n)), (Z.leb_spec from j),
        (Z.ltb_spec j (from + Z.of_nat n + 1)), (Z.ltb_spec j (from + Z.of_nat n));
        cbn; try reflexivity; lia.
Qed.

(** ** Reveal animation *)

(** Once the batch counter is past the batch count the callback returns at
    line 74. *)
Lemma revealFrame_done (r : Render.Rendering) (delta : float) (h : Render.Hooks) :
  (Binary64.ofZ (Z.of_nat (List.length (Render.pixels (Render.props r))))
   / Binary64.ofZ (Render.pixelWidth (Render.props r))
   <? Binary64.ofZ (Render.batchIndexRef h))%float = true ->
  Render.revealFrame r delta h = h.
Proof. intros Hdone. unfold Render.revealFrame. now rewrite Hdone. Qed.

Lemma in_batch_test (b W i : Z) (ps : list PixelInfo) :
  in_batch b W ps i
  <-> (b * W <=? i) && (i <? Z.min (b * W + W) (Z.of_nat (List.length ps))) = true.
Proof.
  unfold in_batch. rewrite andb_true_iff, Z.leb_le, Z.ltb_lt. reflexivity.
Qed.

(** C5. A frame of the reveal animation, in the arithmetic of the program.
    Once the batch counter is past the batch count, [pixels.length /
    pixelWidth], the callback leaves everything as it was.  Before that it
    adds the elapsed time to the accumulator; if the sum exceeds the
    threshold of the current batch, the batch index times (the reveal
    duration divided by the batch count), the array it stores has scale 1
    at the cells of that batch and, at every other cell, the scale the
    callback's render had, and the batch counter advances by one; otherwise
    the stored scales and the counter stay. *)
Theorem frame_reveals_current_batch
    (r : Render.Rendering) (delta : float) (h : Render.Hooks) :
  let b := Render.batchIndexRef h in
  let W := Render.pixelWidth (Render.props r) in
  let ps := Render.pixels (Render.props r) in
  let batches := (Binary64.ofZ (Z.of_nat (List.length ps)) / Binary64.ofZ W)%float in
  let threshold := (Binary64.ofZ b * (Binary64.ofZ ANIMATION_TIME / batches))%float in
  let accumulated := (Render.scaleProgressRef h + delta)%float in
  let h' := Render.revealFrame r delta h in
  ((batches <? Binary64.ofZ b)%float = true -> h' = h)
  /\ ((batches <? Binary64.ofZ b)%float = false ->
        Render.scaleProgressRef h' = accumulated
        /\ Render.prevFileChangeCountRef h' = Render.prevFileChangeCountRef h
        /\ ((threshold <? accumulated)%float = true ->
              Render.batchIndexRef h' = b + 1
              /\ forall i, 0 <= i ->
                   (in_batch b W ps i ->
                      JsArray.get (Render.scalesState h') i = Some 1)
                   /\ (~ in_batch b W ps i ->
                         JsArray.get (Render.scalesState h') i
                         = JsArray.get (Render.scales r) i))
        /\ ((threshold <? accumulated)%float = false ->
              Render.batchIndexRef h' = b
              /\ Render.scalesState h' = Render.scalesState h)).
Proof.
  cbv zeta. split; [apply revealFrame_done |].
  intros Hopen. unfold Render.revealFrame. rewrite Hopen.
  destruct (_ <? Render.scaleProgressRef h + delta)%float eqn:Hdue;
    cbn [Render.scaleProgressRef Render.prevFileChangeCountRef Render.batchIndexRef
         Render.scalesState].
  - split; [reflexivity |]. split; [reflexivity |]. split; [| discriminate].
    intros _. split; [reflexivity |]. intros i Hi.
    rewrite reveal_loop_get by assumption. rewrite in_batch_test.
    destruct ((_ <=? i) && (i <? _)); split; intros Hin;
      solve [reflexivity | discriminate | now elim Hin].
  - split; [reflexivity |]. split; [reflexivity |]. split; [discriminate |].
    intros _. split; reflexivity.
Qed.

Lemma frame_reveals_current_batch_witness :
  let r := Render.rendering column_half_way in
  let h := Render.hooks column_half_way in
  let due := Render.revealFrame r 0.015625%float h in
  let early := Render.revealFrame r 0.0078125%float h in
  Render.batchIndexRef h = 47
  /\ Render.scaleProgressRef h = 1.484375%float
  /\ (Binary64.ofZ 47 * (Binary64.ofZ ANIMATION_TIME / (Binary64.ofZ 94 / Binary64.ofZ 1))
      <? 1.5)%float = true
  /\ Render.scaleProgressRef due = 1.5%float
  /\ Render.batchIndexRef due = 48
  /\ JsArray.get (Render.scalesState due) 46 = Some 1
  /\ JsArray.get (Render.scalesState due) 47 = Some 1
  /\ JsArray.get (Render.scalesState due) 48 = Some 0
  /\ Render.scaleProgressRef early = 1.4921875%float
  /\ Render.batchIndexRef early = 47
  /\ Render.scalesState early = Render.scalesState h.
Proof.
  cbv zeta. do 3 (split; [vm_compute; reflexivity |]).
  destruct (frame_reveals_current_batch
              (Render.rendering column_half_way) 0.015625%float
              (Render.hooks column_half_way)) as [_ Hrun].
  destruct Hrun as (Hsum & _ & Hdue & _); [vm_compute; reflexivity |].
  destruct Hdue as (Hbatch & Hcells); [vm_compute; reflexivity |].
  split; [rewrite Hsum; vm_compute; reflexivity |].
  split; [rewrite Hbatch; vm_compute; reflexivity |].
  split.
  { rewrite (proj2 (Hcells 46 ltac:(lia))).
    - vm_compute. reflexivity.
    - rewrite in_batch_test. vm_compute. discriminate. }
  split.
  { apply (Hcells 47); [lia |]. apply in_batch_test. vm_compute. reflexivity. }
  split.
  { rewrite (proj2 (Hcells 48 ltac:(lia))).
    - vm_compute. reflexivity.
    - rewrite in_batch_test. vm_compute. discriminate. }
  destruct (frame_reveals_current_batch
              (Render.rendering column_half_way) 0.0078125%float
              (Render.hooks column_half_way)) as [_ Hwait].
  destruct Hwait as (Hsum' & _ & _ & Hearly); [vm_compute; reflexivity |].
  destruct Hearly as (Hbatch' & Hscales'); [vm_compute; reflexivity |].
  split; [rewrite Hsum'; vm_compute; reflexivity |].
  split; [rewrite Hbatch'; vm_compute; reflexivity | exact Hscales'].
Defined.

Lemma step_frame_done (m : Render.Mounted) (delta : float) :
  Render.revealFrame (Render.rendering m) delta (Render.hooks m) = Render.hooks m ->
  Render.step m (Render.Frame delta) = m.
Proof. intros E. destruct m as [h r]. cbn in *. now rewrite E. Qed.

(** C6. A reload at another size.  The 2 x 2 image of [demo_world], its
    three cells shown, is reloaded at 4 x 1, where it has four cells.  The
    counter changes while the grid still holds the three old records: the
    reset stores an array of three zeros and sets the accumulator and the
    batch counter to 0.  Frames that pass while the image loads reveal the
    three cells again.  When the four new records arrive the counter is the
    one the grid has seen and nothing is reset: cells 0 to 2 of the new
    image are shown at once, and cell 3 has no scale, neither 0 nor 1.  The
    frames that follow take the batch counter past the batch count without
    giving cell 3 a scale, and from then on neither a frame nor a render
    changes anything. *)
Theorem reload_resets_the_old_cells_only :
  let getContext := fun _ _ : Z => Some (browser_canvas_of (white 4)) in
  let before := Render.run reveal_events demo_grid in
  let reset := Render.run reset_events before in
  let arrived := Render.run (loading_events ++ arrival_events wide_pixels) reset in
  let closed := Render.run (closing_events wide_pixels) arrived in
  (exists load w,
     snd (imageEffect resized_world) = Some load
     /\ fileChangeCount (art reloading_world) = fileChangeCount (art demo_world) + 1
     /\ img_onload unit getContext tt load reloading_world = Ok w
     /\ pixels (art w) = Some wide_pixels
     /\ PixelGrid_props (art w) wide_pixels
        = PixelGrid_props (art reloading_world) wide_pixels)
  /\ List.length demo_pixels = 3%nat
  /\ List.length wide_pixels = 4%nat
  /\ map (Render.shown before) [0; 1; 2] = [Some 1; Some 1; Some 1]
  /\ Render.scalesState (Render.hooks reset) = [Some 0; Some 0; Some 0]
  /\ Render.scaleProgressRef (Render.hooks reset) = 0%float
  /\ Render.batchIndexRef (Render.hooks reset) = 0
  /\ Render.prevFileChangeCountRef (Render.hooks reset)
     = fileChangeCount (art reloading_world)
  /\ map (Render.shown reset) [0; 1; 2; 3] = [Some 0; Some 0; Some 0; None]
  /\ Render.pixels (Render.props (Render.rendering arrived)) = wide_pixels
  /\ map (Render.shown arrived) [0; 1; 2; 3] = [Some 1; Some 1; Some 1; None]
  /\ map (Render.shown closed) [0; 1; 2; 3] = [Some 1; Some 1; Some 1; None]
  /\ (forall delta, Render.step closed (Render.Frame delta) = closed)
  /\ Render.step closed
       (Render.Commit (PixelGrid_props (art reloading_world) wide_pixels))
     = closed.
Proof.
  cbv zeta. split.
  { eexists. eexists. split; [reflexivity |]. split; [reflexivity |].
    split; [reflexivity |]. split; reflexivity. }
  do 11 (split; [vm_compute; reflexivity |]).
  split.
  - intros delta. apply step_frame_done, revealFrame_done. vm_compute. reflexivity.
  - vm_compute. reflexivity.
Qed.

Lemma revealFrame_art (delta : number) (w : World) :
  art (revealFrame delta w) = art w.
Proof.
  unfold revealFrame. destruct (pixels (art w)); [| reflexivity].
  destruct (gt _ _); [reflexivity |]. destruct (gt _ _); reflexivity.
Qed.

Section FrameLemmas.

Variable Math_sin : number -> number.
Variable Math_PI : number.

(** The displacement callback writes the mode it last saw, its progress and
    the positions of the meshes, and nothing else. *)
Lemma displacementFrame_keeps (delta : number) (w : World) :
  let w' := fst (displacementFrame Math_sin Math_PI delta w) in
  art w' = art w
  /\ scales (grid w') = scales (grid w)
  /\ batchIndexRef (grid w') = batchIndexRef (grid w)
  /\ scaleProgressRef (grid w') = scaleProgressRef (grid w)
  /\ prevFileChangeCountRef (grid w') = prevFileChangeCountRef (grid w)
  /\ scatterPositionsRef (grid w') = scatterPositionsRef (grid w)
  /\ timers w' = timers w
  /\ clock w' = clock w.
Proof.
  cbv zeta. unfold displacementFrame. destruct (pixels (art w)) as [ps |].
  - destruct (String.eqb (animation (art w)) "default").
    + cbn. repeat split.
    + destruct (placePixels _ _ _ _ _ _ _ _) as [group completion].
      cbn. repeat split.
  - cbn. repeat split.
Qed.

Lemma frame_art (delta : number) (w : World) :
  art (frame Math_sin Math_PI delta w) = art w.
Proof.
  unfold frame.
  destruct (displacementFrame_keeps delta (revealFrame delta w)) as (E & _).
  rewrite E. apply revealFrame_art.
Qed.

Lemma frames_art (deltas : list number) (w : World) :
  art (frames Math_sin Math_PI deltas w) = art w.
Proof.
  unfold frames. revert w.
  induction deltas as [| delta deltas IH]; intros w; cbn; [reflexivity |].
  rewrite IH. apply frame_art.
Qed.

End FrameLemmas.

(** ** Mode transitions *)

(** C7. Triggering the explosion (the wave) sets the mode to
    ["explosion_start"] (["wave_start"]) and leaves two timers; with no
    other timer pending, the first fires [ANIMATION_TIME * 1000] ms after
    the trigger and sets ["explosion_end"] (["wave_end"]), the second fires
    [ANIMATION_TIME * 2000] ms after the trigger and sets ["default"], and
    then no timer is left: the mode returns to idle exactly once. *)
Theorem trigger_returns_to_idle_once (w : World) :
  timers w = [] ->
  (let w1 := controlExplosionAnimation w in
   animation (art w1) = "explosion_start"%string
   /\ (exists w2 w3,
         fireNext w1 = Some w2
         /\ animation (art w2) = "explosion_end"%string
         /\ clock w2 = clock w + ANIMATION_TIME * 1000
         /\ fireNext w2 = Some w3
         /\ animation (art w3) = "default"%string
         /\ clock w3 = clock w + 2 * (ANIMATION_TIME * 1000)
         /\ fireNext w3 = None)
   /\ returnsToIdle (pendingFirings w1) = 1%nat)
  /\ (let w1 := controlWaveAnimation w in
      animation (art w1) = "wave_start"%string
      /\ (exists w2 w3,
            fireNext w1 = Some w2
            /\ animation (art w2) = "wave_end"%string
            /\ clock w2 = clock w + ANIMATION_TIME * 1000
            /\ fireNext w2 = Some w3
            /\ animation (art w3) = "default"%string
            /\ clock w3 = clock w + 2 * (ANIMATION_TIME * 1000)
            /\ fireNext w3 = None)
      /\ returnsToIdle (pendingFirings w1) = 1%nat).
Proof.
  intros Hnone.
  assert (Hle : (clock w + ANIMATION_TIME * 1000
                 <=? clock w + ANIMATION_TIME * 2000) = true)
    by (apply Z.leb_le; unfold ANIMATION_TIME; lia).
  assert (Hmax1 : Z.max (clock w) (clock w + ANIMATION_TIME * 1000)
                  = clock w + ANIMATION_TIME * 1000)
    by (unfold ANIMATION_TIME; lia).
  assert (Hmax2 : Z.max (clock w + ANIMATION_TIME * 1000)
                    (clock w + ANIMATION_TIME * 2000)
                  = clock w + 2 * (ANIMATION_TIME * 1000))
    by (unfold ANIMATION_TIME; lia).
  split; cbv zeta.
  - unfold controlExplosionAnimation, pendingFirings, setTimeout, setAnimation,
      with_art; cbn [art grid timers clock animation]. rewrite Hnone.
    cbn [app List.length firings]. unfold fireNext.
    cbn [timers nextTimer due mode]. rewrite Hle.
    cbn [setAnimation with_art art grid timers clock animation mode due].
    unfold setAnimation, with_art. cbn [art grid timers clock animation nextTimer mode due].
    rewrite Hmax1, Hmax2.
    split; [reflexivity |]. split; [| reflexivity].
    eexists. eexists. repeat (split; [reflexivity |]).
    cbn [timers nextTimer due mode clock art animation].
    rewrite Hmax2. repeat (split; [reflexivity |]). reflexivity.
  - unfold controlWaveAnimation, pendingFirings, setTimeout, setAnimation,
      with_art; cbn [art grid timers clock animation]. rewrite Hnone.
    cbn [app List.length firings]. unfold fireNext.
    cbn [timers nextTimer due mode]. rewrite Hle.
    cbn [setAnimation with_art art grid timers clock animation mode due].
    unfold setAnimation, with_art. cbn [art grid timers clock animation nextTimer mode due].
    rewrite Hmax1, Hmax2.
    split; [reflexivity |]. split; [| reflexivity].
    eexists. eexists. repeat (split; [reflexivity |]).
    cbn [timers nextTimer due mode clock art animation].
    rewrite Hmax2. repeat (split; [reflexivity |]). reflexivity.
Qed.

Lemma trigger_returns_to_idle_once_witness :
  returnsToIdle (pendingFirings (controlExplosionAnimation demo_world)) = 1%nat
  /\ returnsToIdle (pendingFirings (controlWaveAnimation demo_world)) = 1%nat.
Proof.
  destruct (trigger_returns_to_idle_once demo_world eq_refl)
    as ((_ & _ & Hexplosion) & (_ & _ & Hwave)).
  split; [exact Hexplosion | exact Hwave].
Defined.

(** ** Frames and the sampled records *)

Section FrameClaims.

Variable Math_sin : number -> number.
Variable Math_PI : number.

(** C9. No frame of either animation changes the [PixelInfo] records: after
    the reveal callback, after the displacement callback (also when it ends
    in an exception), and after any number of frames, the page state, and
    with it [pixels], is what it was; the positions computed by the
    displacement go to the meshes of the group. *)
Theorem frames_keep_pixels (delta : number) (deltas : list number) (w : World) :
  pixels (art (revealFrame delta w)) = pixels (art w)
  /\ pixels (art (fst (displacementFrame Math_sin Math_PI delta w))) = pixels (art w)
  /\ art (frames Math_sin Math_PI deltas w) = art w
  /\ pixels (art (frames Math_sin Math_PI deltas w)) = pixels (art w).
Proof.
  split; [now rewrite revealFrame_art |].
  split; [now destruct (displacementFrame_keeps Math_sin Math_PI delta w) as (-> & _) |].
  split; [apply frames_art | now rewrite frames_art].
Qed.

Lemma position_set_nth (children : list Mesh) (i j : nat) (v : Vector3.t) :
  nth_error (position_set children i v) j
  = match nth_error children j with
    | None => None
    | Some m => Some (if Nat.eqb j i then {| position := v |} else m)
    end.
Proof.
  revert i j. induction children as [| m rest IH]; intros i j.
  - now destruct j.
  - destruct i as [| i], j as [| j]; cbn; try reflexivity.
    + now destruct (nth_error rest j).
    + apply IH.
Qed.

(** In the wave modes the target keeps the rest [x] and [y]. *)
Lemma targetPosition_wave (animation : string) (animationProgress smoothProgress : number)
    (scatter : option Vector3.t) (pixel : PixelInfo) :
  animation = "wave_start"%string \/ animation = "wave_end"%string ->
  exists targetZ,
    targetPosition Math_sin animation animationProgress smoothProgress scatter pixel
    = Ok (Vector3.make (x pixel) (y pixel) targetZ).
Proof.
  intros [-> | ->]; unfold targetPosition; cbn [String.eqb Ascii.eqb Bool.eqb];
    eexists; reflexivity.
Qed.

Lemma placePixels_wave (animation : string) (animationProgress smoothProgress : number)
    (scatterPositions : list Vector3.t) (ps : list PixelInfo) :
  animation = "wave_start"%string \/ animation = "wave_end"%string ->
  forall (i : nat) (group : option (list Mesh)),
  exists group',
    placePixels Math_sin animation animationProgress smoothProgress
      scatterPositions ps i group = (group', Normal)
    /\ (forall children', group' = Some children' ->
          exists children,
            group = Some children
            /\ (forall j, (j < i)%nat -> nth_error children' j = nth_error children j)
            /\ (forall k p m, nth_error ps k = Some p ->
                  nth_error children' (i + k) = Some m ->
                  Vector3.x (position m) = x p /\ Vector3.y (position m) = y p)).
Proof.
  intros Hwave. induction ps as [| p rest IH]; intros i group.
  - exists group. split; [reflexivity |]. intros children' ->.
    exists children'. split; [reflexivity |]. split; [reflexivity |].
    intros k q m Hk. now destruct k.
  - cbn [placePixels].
    destruct (targetPosition_wave animation animationProgress smoothProgress
                (nth_error scatterPositions i) p Hwave) as (targetZ & ->).
    destruct (IH (S i)
                (match group with
                 | None => None
                 | Some children =>
                     Some (position_set children i
                             (Vector3.make (x p) (y p) targetZ))
                 end)) as (group' & Hrun & Hgroup').
    exists group'. split; [exact Hrun |]. intros children' Hsome.
    destruct (Hgroup' children' Hsome) as (children1 & Hchildren1 & Hbefore & Hat).
    destruct group as [children |]; [| discriminate].
    injection Hchildren1 as <-. exists children. split; [reflexivity |]. split.
    + intros j Hj. rewrite Hbefore by lia. rewrite position_set_nth.
      destruct (nth_error children j); [| reflexivity].
      destruct (Nat.eqb_spec j i); [lia | reflexivity].
    + intros k q m Hk Hm. destruct k as [| k].
      * cbn in Hk. injection Hk as <-. rewrite Nat.add_0_r in Hm.
        rewrite Hbefore, position_set_nth in Hm by lia.
        destruct (nth_error children i); [| discriminate].
        rewrite Nat.eqb_refl in Hm. injection Hm as <-. split; reflexivity.
      * cbn in Hk. apply (Hat k q m Hk).
        now replace (S i + k)%nat with (i + S k)%nat by lia.
Qed.

(** C10. In the modes ["wave_start"] and ["wave_end"] a frame of the
    displacement callback ends normally, and the position it leaves on the
    mesh of every cell has the [x] and [y] of the cell's record: only [z]
    is displaced. *)
Theorem wave_frame_keeps_x_and_y (delta : number) (w : World) (ps : list PixelInfo) :
  pixels (art w) = Some ps ->
  animation (art w) = "wave_start"%string \/ animation (art w) = "wave_end"%string ->
  snd (displacementFrame Math_sin Math_PI delta w) = Normal
  /\ forall children i p m,
       groupRef (grid (fst (displacementFrame Math_sin Math_PI delta w))) = Some children ->
       nth_error ps i = Some p ->
       nth_error children i = Some m ->
       Vector3.x (position m) = x p /\ Vector3.y (position m) = y p.
Proof.
  intros Hps Hwave. unfold displacementFrame. rewrite Hps.
  assert (Hmode : String.eqb (animation (art w)) "default" = false)
    by (destruct Hwave as [-> | ->]; reflexivity).
  rewrite Hmode.
  match goal with
  | |- context [placePixels ?s ?a ?p ?sm ?sc ?l ?i ?gr] =>
      destruct (placePixels_wave a p sm sc l Hwave i gr) as (group' & -> & Hgroup')
  end.
  cbn [fst snd grid with_grid groupRef]. split; [reflexivity |].
  intros children i p m Hsome Hp Hm.
  destruct (Hgroup' children Hsome) as (children0 & _ & _ & Hat).
  exact (Hat i p m Hp Hm).
Qed.

End FrameClaims.

Lemma wave_frame_keeps_x_and_y_witness :
  snd (displacementFrame (fun a => a) (ofZ 3) (ofZ 1)
         (setAnimation "wave_start" demo_world)) = Normal
  /\ forall children m,
       groupRef (grid (fst (displacementFrame (fun a => a) (ofZ 3) (ofZ 1)
                              (setAnimation "wave_start" demo_world))))
       = Some children ->
       nth_error children 1 = Some m ->
       Vector3.x (position m) = ofZ 0 /\ Vector3.y (position m) = ofZ 1.
Proof.
  destruct (wave_frame_keeps_x_and_y (fun a => a) (ofZ 3) (ofZ 1)
              (setAnimation "wave_start" demo_world) demo_pixels eq_refl
              (or_introl eq_refl)) as (Hnormal & Hcells).
  split; [exact Hnormal |].
  intros children m Hchildren Hm.
  assert (Hp : nth_error demo_pixels 1
               = Some {| x := ofZ 0; y := ofZ 1; z := ofZ 0;
                         color := mkColor (ofZ 0) (ofZ 1) (ofZ 0) |}).
  { replace demo_pixels
      with [ {| x := ofZ (-1); y := ofZ 1; z := ofZ 0;
                color := mkColor (ofZ 1) (ofZ 0) (ofZ 0) |};
             {| x := ofZ 0; y := ofZ 1; z := ofZ 0;
                color := mkColor (ofZ 0) (ofZ 1) (ofZ 0) |};
             {| x := ofZ (-1); y := ofZ 0; z := ofZ 0;
                color := mkColor (ofZ 0) (ofZ 0) (ofZ 1) |} ].
    - reflexivity.
    - symmetry. apply pixels_eqb_eq. vm_compute. reflexivity. }
  exact (Hcells children 1%nat _ m Hchildren Hp Hm).
Defined.

(** * Further properties *)

(** ** Order on numbers *)

Ltac qc_to_q :=
  unfold Qcle, Qclt, Qcplus, Qcminus, Qcopp, Qcdiv, Qcmult, Qcinv in *;
  cbn [this Q2Qc] in *;
  rewrite ?Qred_correct in *.

Lemma lt_Fin_true (p q : Qc) : lt (Fin p) (Fin q) = true <-> (p < q)%Qc.
Proof.
  cbn [lt]. rewrite Qclt_alt. destruct (p ?= q)%Qc; split; congruence.
Qed.

Lemma lt_Fin_false (p q : Qc) : lt (Fin p) (Fin q) = false <-> (q <= p)%Qc.
Proof.
  split.
  - intros E. apply Qcnot_lt_le. intros L. apply lt_Fin_true in L. congruence.
  - intros L. destruct (lt (Fin p) (Fin q)) eqn:E; [| reflexivity].
    apply lt_Fin_true in E. now apply Qcle_not_lt in L.
Qed.

(** Comparing a quotient of integers with an integer. *)
Lemma lt_div_ofZ_l (a c n : Z) :
  0 < c -> lt (div (ofZ a) (ofZ c)) (ofZ n) = (a <? n * c).
Proof.
  intros Hc. rewrite div_ofZ by lia. unfold ofZ.
  assert (Hcq : (0 < inject_Z c)%Q) by (change 0%Q with (inject_Z 0); rewrite <- Zlt_Qlt; exact Hc).
  destruct (Z.ltb_spec a (n * c)) as [L | L].
  - apply lt_Fin_true. qc_to_q. apply Qlt_shift_div_r; [exact Hcq |].
    rewrite <- inject_Z_mult, <- Zlt_Qlt. exact L.
  - apply lt_Fin_false. qc_to_q. apply Qle_shift_div_l; [exact Hcq |].
    rewrite <- inject_Z_mult, <- Zle_Qle. exact L.
Qed.

Lemma lt_div_ofZ_r (a c n : Z) :
  0 < c -> lt (ofZ n) (div (ofZ a) (ofZ c)) = (n * c <? a).
Proof.
  intros Hc. rewrite div_ofZ by lia. unfold ofZ.
  assert (Hcq : (0 < inject_Z c)%Q) by (change 0%Q with (inject_Z 0); rewrite <- Zlt_Qlt; exact Hc).
  destruct (Z.ltb_spec (n * c) a) as [L | L].
  - apply lt_Fin_true. qc_to_q. apply Qlt_shift_div_l; [exact Hcq |].
    rewrite <- inject_Z_mult, <- Zlt_Qlt. exact L.
  - apply lt_Fin_false. qc_to_q. apply Qle_shift_div_r; [exact Hcq |].
    rewrite <- inject_Z_mult, <- Zle_Qle. exact L.
Qed.

(** ** The sampler in reading order *)

Lemma flat_map_singleton_filter {A B : Type} (keep : A -> bool) (f : A -> B) (l : list A) :
  flat_map (fun a => if keep a then [f a] else []) l = map f (filter keep l).
Proof.
  induction l as [| a l IH]; cbn; [reflexivity |].
  rewrite IH. now destruct (keep a).
Qed.

Lemma flat_map_nested {A B C : Type} (f : B -> list C) (g : A -> list B) (l : list A) :
  flat_map f (flat_map g l) = flat_map (fun a => flat_map f (g a)) l.
Proof.
  induction l as [| a l IH]; cbn; [reflexivity |].
  now rewrite flat_map_app, IH.
Qed.

Lemma flat_map_of_map {A B C : Type} (f : B -> list C) (g : A -> B) (l : list A) :
  flat_map f (map g l) = flat_map (fun a => f (g a)) l.
Proof. induction l as [| a l IH]; cbn; [reflexivity | now rewrite IH]. Qed.

Lemma grid_cells_In (W H row col : Z) :
  In (row, col) (grid_cells W H) <-> 0 <= row < H /\ 0 <= col < W.
Proof.
  unfold grid_cells. rewrite in_flat_map. split.
  - intros (r & Hr & Hin). apply in_map_iff in Hin.
    destruct Hin as (c & E & Hc). injection E as <- <-.
    apply indices_In in Hr. apply indices_In in Hc. auto.
  - intros [Hr Hc]. exists row. split; [now apply indices_In |].
    apply in_map. now apply indices_In.
Qed.

Lemma indices_NoDup (n : Z) : NoDup (indices n).
Proof.
  unfold indices. apply Finite.Injective_map_NoDup; [| apply seq_NoDup].
  intros a b E. lia.
Qed.

Lemma grid_cells_NoDup (W H : Z) : NoDup (grid_cells W H).
Proof.
  unfold grid_cells.
  generalize (indices_NoDup H). generalize (indices H) as rows.
  induction rows as [| row rows IH]; intros Hrows; cbn; [constructor |].
  inversion Hrows as [| ? ? Hnot Hrest]; subst.
  apply NoDup_app.
  - apply Finite.Injective_map_NoDup; [| apply indices_NoDup].
    intros a b E. now injection E.
  - now apply IH.
  - intros [r c] Hin Hin'. apply in_map_iff in Hin.
    destruct Hin as (c' & E & _). injection E as <- <-.
    apply in_flat_map in Hin'. destruct Hin' as (r' & Hr' & Hin').
    apply in_map_iff in Hin'. destruct Hin' as (c'' & E & _).
    injection E as -> _. contradiction.
Qed.

Lemma grid_cells_length (W H : Z) :
  0 <= W -> 0 <= H -> Z.of_nat (List.length (grid_cells W H)) = W * H.
Proof.
  intros HW HH. unfold grid_cells.
  assert (L : forall rows : list Z,
             List.length (flat_map (fun row => map (pair row) (indices W)) rows)
             = (List.length rows * Z.to_nat W)%nat).
  { induction rows as [| row rows IH]; cbn; [reflexivity |].
    now rewrite length_app, length_map, indices_length, IH. }
  rewrite L, indices_length. nia.
Qed.

Lemma rows_as_cells (data : Uint8ClampedArray) (W H : Z) :
  flat_map (emit_row data W H) (indices H)
  = map (record_of data W H) (filter (cell_kept data W) (grid_cells W H)).
Proof.
  rewrite <- flat_map_singleton_filter. unfold grid_cells.
  rewrite flat_map_nested. apply flat_map_ext. intros row.
  rewrite flat_map_of_map. reflexivity.
Qed.

(** X1. The loops of [createPixelData] read the grid row after row and
    return, in that order, the record of every cell that passes the alpha
    test, and nothing else. *)
Theorem sample_reading_order (data : Uint8ClampedArray) (W H : Z) :
  0 <= W ->
  sample data W H
  = map (record_of data W H) (filter (cell_kept data W) (grid_cells W H)).
Proof.
  intros HW. rewrite sample_rows by assumption. apply rows_as_cells.
Qed.

Lemma sample_reading_order_witness :
  sample rgbt 2 2
  = map (record_of rgbt 2 2) (filter (cell_kept rgbt 2) (grid_cells 2 2)).
Proof. apply (sample_reading_order rgbt 2 2). lia. Defined.

Lemma place_record_of_inj (data : Uint8ClampedArray) (W H : Z) (c c' : Z * Z) :
  place (record_of data W H c) = place (record_of data W H c') -> c = c'.
Proof.
  destruct c as [row col], c' as [row' col'].
  unfold place, record_of. cbn [fst snd cell_record x y]. intros E.
  assert (Ex := f_equal fst E). assert (Ey := f_equal snd E).
  cbn [fst snd] in Ex, Ey.
  apply centred_x_inj in Ex. apply centred_y_inj in Ey. now subst.
Qed.

(** X2. No two records returned by the sampler share a position: every
    cube has its own place in the plane. *)
Theorem sample_positions_distinct (data : Uint8ClampedArray) (W H : Z) :
  0 <= W -> NoDup (map place (sample data W H)).
Proof.
  intros HW. rewrite sample_rows, rows_as_cells by assumption. rewrite map_map.
  apply Finite.Injective_map_NoDup.
  - intros c c'. apply place_record_of_inj.
  - apply NoDup_filter, grid_cells_NoDup.
Qed.

Lemma sample_positions_distinct_witness :
  NoDup (map place (sample rgbt 2 2)).
Proof. apply (sample_positions_distinct rgbt 2 2). lia. Defined.

Lemma filter_all {A : Type} (keep : A -> bool) (l : list A) :
  (forall a, In a l -> keep a = true) -> filter keep l = l.
Proof.
  induction l as [| a l IH]; intros Hall; cbn; [reflexivity |].
  rewrite (Hall a (or_introl eq_refl)). f_equal. apply IH.
  intros a' Ha'. apply Hall. now right.
Qed.

Lemma filter_none {A : Type} (keep : A -> bool) (l : list A) :
  (forall a, In a l -> keep a = false) -> filter keep l = [].
Proof.
  induction l as [| a l IH]; intros Hnone; cbn; [reflexivity |].
  rewrite (Hnone a (or_introl eq_refl)). apply IH.
  intros a' Ha'. apply Hnone. now right.
Qed.

(** X3. An image with every cell at alpha 30 or more gives exactly [W * H]
    records; an image with every cell below 30 gives none. *)
Theorem sample_opaque_and_transparent (data : Uint8ClampedArray) (W H : Z) :
  0 <= W -> 0 <= H ->
  ((forall row col, 0 <= row < H -> 0 <= col < W ->
      exists a, cell_alpha data W row col = Some a /\ 30 <= a) ->
   Z.of_nat (List.length (sample data W H)) = W * H)
  /\ ((forall row col, 0 <= row < H -> 0 <= col < W ->
         exists a, cell_alpha data W row col = Some a /\ a < 30) ->
      sample data W H = []).
Proof.
  intros HW HH. rewrite sample_rows, rows_as_cells by assumption.
  split; intros Hcells.
  - rewrite filter_all, length_map; [now apply grid_cells_length |].
    intros [row col] Hin. apply grid_cells_In in Hin. destruct Hin as [Hr Hc].
    destruct (Hcells row col Hr Hc) as (a & Ha & Hop).
    unfold cell_kept. cbn [fst snd]. rewrite (kept_alpha _ _ _ _ _ Ha).
    now apply Z.leb_le.
  - rewrite filter_none; [reflexivity |].
    intros [row col] Hin. apply grid_cells_In in Hin. destruct Hin as [Hr Hc].
    destruct (Hcells row col Hr Hc) as (a & Ha & Hlow).
    unfold cell_kept. cbn [fst snd]. rewrite (kept_alpha _ _ _ _ _ Ha).
    apply Z.leb_gt. exact Hlow.
Qed.

Lemma sample_opaque_and_transparent_witness :
  Z.of_nat (List.length (sample white_row 2 1)) = 2 * 1.
Proof.
  destruct (sample_opaque_and_transparent white_row 2 1 ltac:(lia) ltac:(lia))
    as [Hfull _].
  apply Hfull. intros row col Hrow Hcol. exists 255. split; [| lia].
  assert (R : row = 0) by lia. assert (C : col = 0 \/ col = 1) by lia.
  subst row. destruct C as [-> | ->]; reflexivity.
Defined.

Lemma for_range_0_idle {S : Type} (n : Z) (body : Z -> S -> S) (s : S) :
  (forall i s', body i s' = s') -> for_range 0 n body s = s.
Proof.
  intros Hidle. rewrite for_range_0.
  induction (indices n) as [| i l IH]; cbn; [reflexivity |].
  now rewrite Hidle.
Qed.

(** X4. With a width or a height that is zero or negative the loops do not
    run: the sampler returns no record, whatever the buffer holds. *)
Theorem sample_no_grid (data : Uint8ClampedArray) (W H : Z) :
  W <= 0 \/ H <= 0 -> sample data W H = [].
Proof.
  intros [HW | HH]; unfold sample.
  - rewrite for_range_0_idle; [reflexivity |].
    intros row st. now apply for_range_0_nonpos.
  - now rewrite for_range_0_nonpos.
Qed.

Lemma sample_no_grid_witness : sample rgbt 0 2 = [] /\ sample rgbt 2 (-1) = [].
Proof.
  split.
  - apply (sample_no_grid rgbt 0 2). left. lia.
  - apply (sample_no_grid rgbt 2 (-1)). right. lia.
Defined.

Lemma byte_at_bytes (data : Uint8ClampedArray) (idx v : Z) :
  bytes data -> byte_at data idx = Some v -> 0 <= v <= 255.
Proof.
  unfold bytes, byte_at. intros Hbytes E.
  destruct (idx <? 0); [discriminate |].
  apply nth_error_In in E.
  exact (proj1 (Forall_forall _ data) Hbytes v E).
Qed.

Lemma byte_at_defined (data : Uint8ClampedArray) (idx : Z) :
  0 <= idx < Z.of_nat (List.length data) -> exists v, byte_at data idx = Some v.
Proof.
  intros Hidx. unfold byte_at.
  destruct (Z.ltb_spec idx 0) as [? | _]; [lia |].
  destruct (nth_error data (Z.to_nat idx)) as [v |] eqn:E; [now exists v |].
  apply nth_error_None in E. lia.
Qed.

Lemma channel_in_unit_interval (v : Z) :
  0 <= v <= 255 -> in_unit_interval (div (ToNumber (Some v)) (ofZ 255)).
Proof.
  intros Hv. cbn [ToNumber]. split; [| split].
  - rewrite div_ofZ by lia. eexists. reflexivity.
  - rewrite lt_div_ofZ_l by lia. apply Z.ltb_ge. lia.
  - rewrite lt_div_ofZ_r by lia. apply Z.ltb_ge. lia.
Qed.

(** X5. For the byte buffer of a [W x H] grid, every record returned by the
    sampler lies in the plane [z = 0] and carries a color whose three
    channels are finite numbers between 0 and 1. *)
Theorem sample_colors_normalized (data : Uint8ClampedArray) (W H : Z) :
  0 <= W -> 0 <= H ->
  bytes data ->
  Z.of_nat (List.length data) = 4 * W * H ->
  forall p, In p (sample data W H) ->
    z p = ofZ 0
    /\ in_unit_interval (r (color p))
    /\ in_unit_interval (g (color p))
    /\ in_unit_interval (b (color p)).
Proof.
  intros HW HH Hbytes Hlen p Hp. apply sample_In in Hp; [| assumption].
  destruct Hp as (row & col & Hrow & Hcol & _ & ->).
  cbn [cell_record z color r g b]. split; [reflexivity |].
  assert (Hin : forall k, 0 <= k < 3 ->
            in_unit_interval
              (div (ToNumber (byte_at data (cell_offset W row col + k))) (ofZ 255))).
  { intros k Hk.
    destruct (byte_at_defined data (cell_offset W row col + k)) as (v & Ev).
    - unfold cell_offset. nia.
    - rewrite Ev. apply channel_in_unit_interval.
      exact (byte_at_bytes data _ v Hbytes Ev). }
  split; [| split].
  - rewrite <- (Z.add_0_r (cell_offset W row col)). apply Hin. lia.
  - apply (Hin 1). lia.
  - apply (Hin 2). lia.
Qed.

Lemma sample_colors_normalized_witness :
  z (cell_record rgbt 2 2 0 1) = ofZ 0
  /\ in_unit_interval (r (color (cell_record rgbt 2 2 0 1)))
  /\ in_unit_interval (g (color (cell_record rgbt 2 2 0 1)))
  /\ in_unit_interval (b (color (cell_record rgbt 2 2 0 1))).
Proof.
  apply (sample_colors_normalized rgbt 2 2); try lia; try reflexivity.
  - unfold bytes, rgbt. repeat (constructor; [lia |]). constructor.
  - apply sample_In; [lia |]. exists 0, 1. repeat split; lia.
Defined.

(** X6. The sampler does not check its reads: a cell of the grid that lies
    past the end of the buffer has an [undefined] alpha, passes the test
    [a < 30] and is returned with the color (NaN, NaN, NaN). *)
Theorem sample_past_buffer (data : Uint8ClampedArray) (W H row col : Z) :
  0 <= W ->
  0 <= row < H -> 0 <= col < W ->
  Z.of_nat (List.length data) <= cell_offset W row col ->
  In (cell_record data W H row col) (sample data W H)
  /\ color (cell_record data W H row col) = mkColor NaN NaN NaN.
Proof.
  intros HW Hrow Hcol Hpast.
  assert (Hnone : forall k, 0 <= k ->
            byte_at data (cell_offset W row col + k) = None).
  { intros k Hk. unfold byte_at.
    destruct (Z.ltb_spec (cell_offset W row col + k) 0) as [_ | _]; [reflexivity |].
    apply nth_error_None. lia. }
  split.
  - apply sample_In; [assumption |]. exists row, col.
    repeat split; try lia. unfold kept, cell_alpha. now rewrite Hnone by lia.
  - unfold cell_record. cbn [color].
    rewrite <- (Z.add_0_r (cell_offset W row col)) at 1.
    now rewrite !Hnone by lia.
Qed.

Lemma sample_past_buffer_witness :
  In (cell_record white_row 2 2 1 0) (sample white_row 2 2)
  /\ color (cell_record white_row 2 2 1 0) = mkColor NaN NaN NaN.
Proof.
  apply (sample_past_buffer white_row 2 2 1 0); try lia.
  unfold cell_offset. cbn. lia.
Defined.

(** ** Reveal animation: what the frames keep *)

(** X7. Running the reset effect a second time changes nothing: the reveal
    restarts once per change of the counter, however often React runs the
    effect. *)
Theorem resetEffect_idempotent (w : World) :
  resetEffect (resetEffect w) = resetEffect w.
Proof.
  destruct (pixels (art w)) as [ps |] eqn:Hps.
  - destruct (Z.eqb_spec (fileChangeCount (art w)) (prevFileChangeCountRef (grid w)))
      as [Hsame | Hchanged].
    + assert (E : resetEffect w = w).
      { unfold resetEffect. rewrite Hps.
        apply Z.eqb_eq in Hsame. now rewrite Hsame. }
      now rewrite !E.
    + assert (E : exists g,
                resetEffect w = with_grid g w
                /\ prevFileChangeCountRef g = fileChangeCount (art w)).
      { unfold resetEffect. rewrite Hps.
        apply Z.eqb_neq in Hchanged. rewrite Hchanged. cbn [negb].
        eexists. split; reflexivity. }
      destruct E as (g & -> & Hprev).
      unfold resetEffect. cbn [art grid with_grid].
      now rewrite Hps, Hprev, Z.eqb_refl.
  - assert (E : resetEffect w = w) by (unfold resetEffect; now rewrite Hps).
    now rewrite !E.
Qed.


Section RevealRuns.

Variable Math_sin : number -> number.
Variable Math_PI : number.




End RevealRuns.




(** ** Displacement: progress *)








Lemma revealFrame_keeps_displacement (delta : number) (w : World) :
  lastAnimationRef (grid (revealFrame delta w)) = lastAnimationRef (grid w)
  /\ animationProgressRef (grid (revealFrame delta w)) = animationProgressRef (grid w)
  /\ scatterPositionsRef (grid (revealFrame delta w)) = scatterPositionsRef (grid w)
  /\ groupRef (grid (revealFrame delta w)) = groupRef (grid w).
Proof.
  unfold revealFrame. destruct (pixels (art w)); [| repeat split].
  destruct (gt _ _); [repeat split |]. destruct (gt _ _); repeat split.
Qed.

Section DisplacementRuns.

Variable Math_sin : number -> number.
Variable Math_PI : number.



End DisplacementRuns.

Section DisplacementPlaces.

Variable Math_sin : number -> number.
Variable Math_PI : number.

Lemma targetPosition_defined (animation : string) (animationProgress smoothProgress : number)
    (s : Vector3.t) (pixel : PixelInfo) :
  exists v,
    targetPosition Math_sin animation animationProgress smoothProgress (Some s) pixel
    = Ok v.
Proof.
  unfold targetPosition.
  destruct (String.eqb animation "explosion_start"); [eexists; reflexivity |].
  destruct (String.eqb animation "explosion_end"); [eexists; reflexivity |].
  destruct (String.eqb animation "wave_start"); [eexists; reflexivity |].
  destruct (String.eqb animation "wave_end"); eexists; reflexivity.
Qed.

Lemma placePixels_normal (animation : string) (animationProgress smoothProgress : number)
    (scatterPositions : list Vector3.t) (ps : list PixelInfo) :
  forall (i : nat) (group : option (list Mesh)),
    (i + List.length ps <= List.length scatterPositions)%nat ->
    snd (placePixels Math_sin animation animationProgress smoothProgress
           scatterPositions ps i group) = Normal.
Proof.
  induction ps as [| p rest IH]; intros i group Hcover; cbn [placePixels];
    [reflexivity |].
  cbn [List.length] in Hcover.
  destruct (nth_error scatterPositions i) as [s |] eqn:Es.
  - destruct (targetPosition_defined animation animationProgress smoothProgress s p)
      as (v & ->).
    apply IH. lia.
  - apply nth_error_None in Es. lia.
Qed.

Lemma placePixels_abrupt (animation : string) (animationProgress smoothProgress : number)
    (scatterPositions : list Vector3.t) (ps : list PixelInfo) :
  animation = "explosion_start"%string \/ animation = "explosion_end"%string ->
  forall (i : nat) (group : option (list Mesh)),
    (i <= List.length scatterPositions < i + List.length ps)%nat ->
    snd (placePixels Math_sin animation animationProgress smoothProgress
           scatterPositions ps i group) = Abrupt "TypeError".
Proof.
  intros Hmode.
  induction ps as [| p rest IH]; intros i group Hshort; cbn [placePixels];
    cbn [List.length] in Hshort.
  - lia.
  - destruct (nth_error scatterPositions i) as [s |] eqn:Es.
    + destruct (targetPosition_defined animation animationProgress smoothProgress s p)
        as (v & ->).
      apply IH.
      assert (Hi : (i < List.length scatterPositions)%nat)
        by (apply nth_error_Some; now rewrite Es).
      lia.
    + destruct Hmode as [-> | ->]; reflexivity.
Qed.

Lemma displacementFrame_normal (delta : number) (w : World) (ps : list PixelInfo) :
  pixels (art w) = Some ps ->
  (List.length ps <= List.length (scatterPositionsRef (grid w)))%nat ->
  snd (displacementFrame Math_sin Math_PI delta w) = Normal.
Proof.
  intros Hps Hcover. unfold displacementFrame. rewrite Hps.
  destruct (String.eqb (animation (art w)) "default"); [reflexivity |].
  match goal with
  | |- context [placePixels ?s ?a ?p ?sm ?sc ?l ?i ?gr] =>
      pose proof (placePixels_normal a p sm sc l i gr Hcover) as Hrun;
      destruct (placePixels s a p sm sc l i gr) as [group completion]
  end.
  exact Hrun.
Qed.

(** X13. A frame of the displacement ends normally, in every mode, when
    there is a scatter target for each pixel; in the explosion modes it
    ends in a [TypeError] when the targets are fewer than the pixels. *)
Theorem displacementFrame_needs_scatter_targets
    (delta : number) (w : World) (ps : list PixelInfo) :
  pixels (art w) = Some ps ->
  ((List.length ps <= List.length (scatterPositionsRef (grid w)))%nat ->
   snd (displacementFrame Math_sin Math_PI delta w) = Normal)
  /\ ((animation (art w) = "explosion_start"%string
       \/ animation (art w) = "explosion_end"%string) ->
      (List.length (scatterPositionsRef (grid w)) < List.length ps)%nat ->
      snd (displacementFrame Math_sin Math_PI delta w) = Abrupt "TypeError").
Proof.
  intros Hps. split; [now apply displacementFrame_normal |].
  intros Hmode Hshort. unfold displacementFrame. rewrite Hps.
  assert (Hnot : String.eqb (animation (art w)) "default" = false)
    by (destruct Hmode as [-> | ->]; reflexivity).
  rewrite Hnot.
  match goal with
  | |- context [placePixels ?s ?a ?p ?sm ?sc ?l ?i ?gr] =>
      pose proof (placePixels_abrupt a p sm sc l Hmode i gr
                    (conj (Nat.le_0_l _) Hshort)) as Hrun;
      destruct (placePixels s a p sm sc l i gr) as [group completion]
  end.
  exact Hrun.
Qed.

End DisplacementPlaces.

Section ScatterTargets.

Variable Math_sin : number -> number.
Variable Math_PI : number.
Variable Math_random : nat -> number.

Lemma scatterCoordinate_range (call : nat) (u : Qc) :
  Math_random call = Fin u -> (Q2Qc 0 <= u)%Qc -> (u < 1)%Qc ->
  exists c, scatterCoordinate Math_random call = Fin c
            /\ (Q2Qc (inject_Z (-50)) <= c)%Qc /\ (c < Q2Qc (inject_Z 50))%Qc.
Proof.
  intros E Hlo Hhi. unfold scatterCoordinate. rewrite E.
  cbn [sub add neg mul ofZ]. eexists. split; [reflexivity |].
  split; qc_to_q; unfold inject_Z in *; lra.
Qed.

(** X14. The scatter effect draws one target per pixel, so that the frame
    after it ends normally in every mode; with [Math.random] in the range
    from 0 (included) to 1 (excluded), every coordinate of every target
    lies from -50 (included) to 50 (excluded). *)
Theorem scatterEffect_targets (delta : number) (w : World) (ps : list PixelInfo) :
  pixels (art w) = Some ps ->
  let w' := scatterEffect Math_random w in
  List.length (scatterPositionsRef (grid w')) = List.length ps
  /\ snd (displacementFrame Math_sin Math_PI delta w') = Normal
  /\ ((forall call, exists u, Math_random call = Fin u
                              /\ (Q2Qc 0 <= u)%Qc /\ (u < 1)%Qc) ->
      forall s, In s (scatterPositionsRef (grid w')) ->
        forall v, v = Vector3.x s \/ v = Vector3.y s \/ v = Vector3.z s ->
          exists c, v = Fin c
                    /\ (Q2Qc (inject_Z (-50)) <= c)%Qc
                    /\ (c < Q2Qc (inject_Z 50))%Qc).
Proof.
  intros Hps. cbv zeta.
  assert (Hw' : scatterPositionsRef (grid (scatterEffect Math_random w))
                = scatterPositions Math_random ps
                /\ pixels (art (scatterEffect Math_random w)) = Some ps).
  { unfold scatterEffect. rewrite Hps. split; [reflexivity | exact Hps]. }
  destruct Hw' as [Hscatter Hps'].
  assert (Hlen : List.length (scatterPositionsRef (grid (scatterEffect Math_random w)))
                 = List.length ps).
  { rewrite Hscatter. unfold scatterPositions. now rewrite length_map, length_seq. }
  split; [exact Hlen |]. split.
  - apply (displacementFrame_normal Math_sin Math_PI delta _ ps Hps'). lia.
  - intros Hrandom s Hs v Hv. rewrite Hscatter in Hs.
    unfold scatterPositions in Hs. apply in_map_iff in Hs.
    destruct Hs as (i & <- & _). cbn [Vector3.x Vector3.y Vector3.z] in Hv.
    destruct Hv as [-> | [-> | ->]].
    + destruct (Hrandom (3 * i)%nat) as (u & E & Hlo & Hhi).
      exact (scatterCoordinate_range _ u E Hlo Hhi).
    + destruct (Hrandom (3 * i + 1)%nat) as (u & E & Hlo & Hhi).
      exact (scatterCoordinate_range _ u E Hlo Hhi).
    + destruct (Hrandom (3 * i + 2)%nat) as (u & E & Hlo & Hhi).
      exact (scatterCoordinate_range _ u E Hlo Hhi).
Qed.

End ScatterTargets.

Section ReturnToRest.

Variable Math_sin : number -> number.
Variable Math_PI : number.






End ReturnToRest.

(** ** Witnesses for the displacement properties *)

Lemma demo_pixels_records :
  demo_pixels
  = [ {| x := ofZ (-1); y := ofZ 1; z := ofZ 0;
         color := mkColor (ofZ 1) (ofZ 0) (ofZ 0) |};
      {| x := ofZ 0; y := ofZ 1; z := ofZ 0;
         color := mkColor (ofZ 0) (ofZ 1) (ofZ 0) |};
      {| x := ofZ (-1); y := ofZ 0; z := ofZ 0;
         color := mkColor (ofZ 0) (ofZ 0) (ofZ 1) |} ].
Proof. apply pixels_eqb_eq. vm_compute. reflexivity. Qed.


Lemma displacementFrame_needs_scatter_targets_witness :
  snd (displacementFrame (fun _ => ofZ 1) (ofZ 3) (ofZ 1) ending_world) = Normal
  /\ snd (displacementFrame (fun _ => ofZ 1) (ofZ 3) (ofZ 1) targetless_world)
     = Abrupt "TypeError".
Proof.
  split.
  - destruct (displacementFrame_needs_scatter_targets (fun _ => ofZ 1) (ofZ 3)
                (ofZ 1) ending_world demo_pixels eq_refl) as [Hnormal _].
    apply Hnormal. rewrite demo_pixels_records. cbn. lia.
  - destruct (displacementFrame_needs_scatter_targets (fun _ => ofZ 1) (ofZ 3)
                (ofZ 1) targetless_world demo_pixels eq_refl) as [_ Habrupt].
    apply Habrupt; [right; reflexivity |].
    rewrite demo_pixels_records. cbn. lia.
Defined.

Lemma scatterEffect_targets_witness :
  List.length
    (scatterPositionsRef (grid (scatterEffect (fun _ => Fin (Q2Qc (1 # 4))) demo_world)))
  = List.length demo_pixels
  /\ forall s,
       In s (scatterPositionsRef
               (grid (scatterEffect (fun _ => Fin (Q2Qc (1 # 4))) demo_world))) ->
       exists c, Vector3.x s = Fin c
                 /\ (Q2Qc (inject_Z (-50)) <= c)%Qc /\ (c < Q2Qc (inject_Z 50))%Qc.
Proof.
  destruct (scatterEffect_targets (fun _ => ofZ 1) (ofZ 3)
              (fun _ => Fin (Q2Qc (1 # 4))) (ofZ 1) demo_world demo_pixels eq_refl)
    as (Hlen & _ & Hrange).
  split; [exact Hlen |].
  assert (Hquarter : forall call : nat,
            exists u, Fin (Q2Qc (1 # 4)) = Fin u
                      /\ (Q2Qc 0 <= u)%Qc /\ (u < 1)%Qc).
  { intros _. exists (Q2Qc (1 # 4)). split; [reflexivity |].
    split; [discriminate | reflexivity]. }
  intros s Hs. apply (Hrange Hquarter s Hs). now left.
Defined.


Section IdleMode.

Variable Math_sin : number -> number.
Variable Math_PI : number.

(** X16. In the mode ["default"] no frame moves a mesh: the cubes stay
    wherever the last displacement frame left them, for any number of
    frames. *)
Theorem idle_frames_move_nothing (deltas : list number) (w : World) :
  animation (art w) = "default"%string ->
  groupRef (grid (frames Math_sin Math_PI deltas w)) = groupRef (grid w).
Proof.
  unfold frames. revert w.
  induction deltas as [| delta deltas IH]; intros w Hidle; cbn [fold_left];
    [reflexivity |].
  rewrite IH by now rewrite frame_art.
  unfold frame, displacementFrame.
  rewrite revealFrame_art, Hidle.
  destruct (revealFrame_keeps_displacement delta w) as (_ & _ & _ & Hgroup).
  destruct (pixels (art w)); cbn [fst grid with_grid groupRef String.eqb];
    exact Hgroup.
Qed.

End IdleMode.

Lemma idle_frames_move_nothing_witness :
  groupRef (grid (frames (fun a => a) (ofZ 3) [ofZ 1; ofZ 1] demo_world))
  = groupRef (grid demo_world).
Proof.
  exact (idle_frames_move_nothing (fun a => a) (ofZ 3) [ofZ 1; ofZ 1] demo_world
           eq_refl).
Defined.

(** ** The page: loading an image *)

Section Loading.

Variable HTMLImageElement : Type.
Variable getContext : Z -> Z -> option (CanvasRenderingContext2D HTMLImageElement).

(** X18. When the canvas yields no context the sampling throws, but only
    after the image effect has moved the counter on: [pixels] still holds
    the old records, and the reset effect that follows restarts the reveal
    of the old picture from batch 0 with every cell hidden. *)
Theorem failed_sampling_replays_old_picture
    (img : HTMLImageElement) (url : string) (ps : list PixelInfo) (w : World) :
  imageSrc (art w) = Some url ->
  url <> EmptyString ->
  pixels (art w) = Some ps ->
  prevFileChangeCountRef (grid w) = fileChangeCount (art w) ->
  getContext (pixelWidth (art w)) (pixelHeight (art w)) = None ->
  exists w1 load,
    imageEffect w = (w1, Some load)
    /\ (exists message, img_onload HTMLImageElement getContext img load w1 = Throw message)
    /\ pixels (art w1) = Some ps
    /\ fileChangeCount (art w1) = fileChangeCount (art w) + 1
    /\ batchIndexRef (grid (resetEffect w1)) = 0
    /\ scales (grid (resetEffect w1)) = JsArray.fill (List.length ps) 0.
Proof.
  intros Hsrc Hurl Hps Hsync Hnone. apply String.eqb_neq in Hurl.
  eexists. eexists. split.
  { unfold imageEffect. rewrite Hsrc, Hurl. reflexivity. }
  split.
  { unfold img_onload, createPixelData. cbn [loadPixelWidth loadPixelHeight].
    rewrite Hnone. eexists. reflexivity. }
  split; [exact Hps |]. split; [reflexivity |].
  unfold resetEffect. cbn [art with_art pixels fileChangeCount grid].
  rewrite Hps, Hsync.
  assert (E : (fileChangeCount (art w) + 1 =? fileChangeCount (art w)) = false)
    by (apply Z.eqb_neq; lia).
  rewrite E. cbn [negb grid with_grid batchIndexRef scales]. split; reflexivity.
Qed.

End Loading.

(** X19. Pressing reload twice is pressing it once; without an image it does
    nothing and the image effect after it loads nothing; with the size
    fields equal to the grid size it leaves the state as it is. *)
Theorem reloadImage_idle_cases (w : World) :
  reloadImage (reloadImage w) = reloadImage w
  /\ (no_image (imageSrc (art w)) = true ->
        reloadImage w = w /\ imageEffect (reloadImage w) = (w, None))
  /\ (tempPixelWidth (art w) = pixelWidth (art w) ->
      tempPixelHeight (art w) = pixelHeight (art w) ->
      reloadImage w = w).
Proof.
  split; [| split].
  - unfold reloadImage at 2. destruct (no_image (imageSrc (art w))) eqn:Himg.
    + unfold reloadImage. now rewrite Himg.
    + unfold reloadImage. cbn [art with_art imageSrc tempPixelWidth tempPixelHeight].
      now rewrite Himg.
  - intros Himg. assert (E : reloadImage w = w)
      by (unfold reloadImage; now rewrite Himg).
    split; [exact E |]. rewrite E. unfold imageEffect.
    unfold no_image in Himg. destruct (imageSrc (art w)) as [url |];
      [now rewrite Himg | reflexivity].
  - intros HW HH. unfold reloadImage. destruct (no_image _); [reflexivity |].
    destruct w as [a g t c]. destruct a.
    cbn [art tempPixelWidth tempPixelHeight pixelWidth pixelHeight] in HW, HH.
    subst. reflexivity.
Qed.

Lemma failed_sampling_replays_old_picture_witness :
  exists w1 load,
    imageEffect demo_world = (w1, Some load)
    /\ (exists message, img_onload unit (fun _ _ => None) tt load w1 = Throw message)
    /\ batchIndexRef (grid (resetEffect w1)) = 0.
Proof.
  destruct (failed_sampling_replays_old_picture unit (fun _ _ => None) tt
              "data:image/png;base64,AAAA"%string demo_pixels demo_world
              eq_refl ltac:(discriminate) eq_refl eq_refl eq_refl)
    as (w1 & load & H1 & H2 & _ & _ & H3 & _).
  exists w1, load. repeat split; assumption.
Defined.

Lemma reloadImage_idle_cases_witness : reloadImage demo_world = demo_world.
Proof.
  destruct (reloadImage_idle_cases demo_world) as (_ & _ & Hsame).
  apply Hsame; reflexivity.
Defined.

(** ** Timers: triggers that overlap *)

Lemma nextTimer_none (pending : list Timer) :
  nextTimer pending = None -> pending = [].
Proof.
  destruct pending as [| t pending]; [reflexivity |]. cbn [nextTimer].
  destruct (nextTimer pending) as [[t' rest'] |]; [| discriminate].
  destruct (due t <=? due t'); discriminate.
Qed.

Lemma nextTimer_some (pending : list Timer) (t : Timer) (rest : list Timer) :
  nextTimer pending = Some (t, rest) ->
  Permutation (t :: rest) pending.
Proof.
  revert t rest. induction pending as [| t0 pending IH]; intros t rest E;
    cbn [nextTimer] in E; [discriminate |].
  destruct (nextTimer pending) as [[t' rest'] |] eqn:En.
  - specialize (IH t' rest' eq_refl).
    destruct (due t0 <=? due t'); injection E as <- <-.
    + reflexivity.
    + rewrite perm_swap. now constructor.
  - apply nextTimer_none in En. subst pending.
    injection E as <- <-. reflexivity.
Qed.

Lemma fireNext_some (w w' : World) :
  fireNext w = Some w' ->
  exists t, Permutation (t :: timers w') (timers w)
            /\ animation (art w') = mode t.
Proof.
  unfold fireNext. destruct (nextTimer (timers w)) as [[t rest] |] eqn:En;
    [| discriminate].
  intros E. injection E as <-. exists t. split; [| reflexivity].
  now apply nextTimer_some.
Qed.

Lemma fireNext_none (w : World) : fireNext w = None -> timers w = [].
Proof.
  unfold fireNext. destruct (nextTimer (timers w)) as [[t rest] |] eqn:En;
    [discriminate |].
  intros _. now apply nextTimer_none.
Qed.

(** With fuel for every pending timer, each fires once. *)
Lemma firings_modes (fuel : nat) (w : World) :
  (List.length (timers w) <= fuel)%nat ->
  Permutation (map snd (firings fuel w)) (map mode (timers w)).
Proof.
  revert w. induction fuel as [| fuel IH]; intros w Hfuel.
  - destruct (timers w); [reflexivity | cbn in Hfuel; lia].
  - cbn [firings]. destruct (fireNext w) as [w' |] eqn:E.
    + destruct (fireNext_some w w' E) as (t & Hperm & Hmode).
      cbn [map snd]. rewrite Hmode, <- Hperm. cbn [map]. constructor.
      apply IH. apply Permutation_length in Hperm. cbn in Hperm. lia.
    + apply fireNext_none in E. now rewrite E.
Qed.

Lemma filter_length_permutation {A : Type} (f : A -> bool) (l l' : list A) :
  Permutation l l' -> List.length (filter f l) = List.length (filter f l').
Proof.
  induction 1 as [| a l l' _ IH | a a' l | l l' l'' _ IH1 _ IH2]; cbn.
  - reflexivity.
  - destruct (f a); cbn; now rewrite IH.
  - destruct (f a), (f a'); reflexivity.
  - now rewrite IH1.
Qed.

Lemma returnsToIdle_pending (w : World) :
  returnsToIdle (pendingFirings w)
  = List.length (filter (fun t => (mode t =? "default")%string) (timers w)).
Proof.
  unfold returnsToIdle, pendingFirings.
  assert (E : forall (l : list (Z * string)),
            List.length (filter (fun change => (snd change =? "default")%string) l)
            = List.length (filter (fun m => (m =? "default")%string) (map snd l))).
  { induction l as [| c l IH]; cbn; [reflexivity |].
    destruct (snd c =? "default")%string; cbn; now rewrite IH. }
  assert (E' : forall (l : list Timer),
            List.length (filter (fun t => (mode t =? "default")%string) l)
            = List.length (filter (fun m => (m =? "default")%string) (map mode l))).
  { induction l as [| c l IH]; cbn; [reflexivity |].
    destruct (mode c =? "default")%string; cbn; now rewrite IH. }
  rewrite E, E'. apply filter_length_permutation, firings_modes. lia.
Qed.

(** X20. A trigger never cancels what is pending: whatever timers are
    waiting, triggering the explosion or the wave adds exactly one more
    return to ["default"] to the mode changes still to come, so [n]
    overlapping triggers set the mode back to idle [n] times. *)
Theorem trigger_adds_one_return_to_idle (w : World) :
  returnsToIdle (pendingFirings (controlExplosionAnimation w))
  = S (returnsToIdle (pendingFirings w))
  /\ returnsToIdle (pendingFirings (controlWaveAnimation w))
     = S (returnsToIdle (pendingFirings w)).
Proof.
  rewrite !returnsToIdle_pending.
  unfold controlExplosionAnimation, controlWaveAnimation, setTimeout, setAnimation,
    with_art. cbn [timers art grid clock].
  rewrite <- !app_assoc, !filter_app, !length_app. cbn. split; lia.
Qed.

(** X21. The race of two triggers.  When the wave is triggered [d] ms after
    the explosion, before that one's first timer is due, the four timers
    fire in the order of their due times: the explosion's
    ["explosion_end"] replaces ["wave_start"] after only
    [ANIMATION_TIME * 1000 - d] ms, and the mode is back at ["default"]
    [d] ms before the wave's own schedule ends. *)
Theorem overlapping_triggers_interleave (w : World) (d : Z) :
  timers w = [] ->
  0 <= d < ANIMATION_TIME * 1000 ->
  let w1 := controlWaveAnimation (elapse d (controlExplosionAnimation w)) in
  animation (art w1) = "wave_start"%string
  /\ pendingFirings w1
     = [ (clock w + ANIMATION_TIME * 1000, "explosion_end"%string);
         (clock w + d + ANIMATION_TIME * 1000, "wave_end"%string);
         (clock w + ANIMATION_TIME * 2000, "default"%string);
         (clock w + d + ANIMATION_TIME * 2000, "default"%string) ].
Proof.
  intros Hnone Hd. cbv zeta. split; [reflexivity |].
  unfold pendingFirings, controlWaveAnimation, controlExplosionAnimation, elapse,
    setTimeout, setAnimation, with_art.
  cbn [timers art grid clock animation]. rewrite Hnone. cbn [app List.length].
  unfold ANIMATION_TIME in *.
  unfold firings, fireNext, setAnimation, with_art.
  cbn [timers art grid clock animation nextTimer due mode].
  repeat (first [ rewrite (proj2 (Z.leb_le _ _)) by lia
                | rewrite (proj2 (Z.leb_gt _ _)) by lia ];
          cbn [timers art grid clock animation nextTimer due mode]).
  repeat (f_equal; try lia).
Qed.

Lemma overlapping_triggers_interleave_witness :
  pendingFirings (controlWaveAnimation (elapse 1000 (controlExplosionAnimation demo_world)))
  = [ (3000, "explosion_end"%string); (4000, "wave_end"%string);
      (6000, "default"%string); (7000, "default"%string) ].
Proof.
  destruct (overlapping_triggers_interleave demo_world 1000 eq_refl)
    as [_ Hfirings].
  - unfold ANIMATION_TIME. lia.
  - exact Hfirings.
Defined.

(** ** Batches and rows *)

Lemma indices_nth (n c : Z) :
  0 <= c < n -> nth_error (indices n) (Z.to_nat c) = Some c.
Proof.
  intros Hc. unfold indices.
  rewrite nth_error_map, nth_error_seq.
  destruct (Nat.ltb_spec (Z.to_nat c) (Z.to_nat n)) as [_ | Hge]; [| lia].
  cbn. f_equal. lia.
Qed.

Lemma grid_cells_succ (W n : Z) :
  0 <= n -> grid_cells W (n + 1) = grid_cells W n ++ map (pair n) (indices W).
Proof.
  intros Hn. unfold grid_cells. rewrite indices_succ by assumption.
  rewrite flat_map_app. cbn [flat_map]. now rewrite app_nil_r.
Qed.

Lemma grid_cells_nth (W H row col : Z) :
  0 <= H -> 0 <= row < H -> 0 <= col < W ->
  nth_error (grid_cells W H) (Z.to_nat (row * W + col)) = Some (row, col).
Proof.
  intros HH. revert row col. pattern H. apply natlike_ind; [| | exact HH]; clear H HH.
  - intros row col Hrow. lia.
  - intros n Hn IH row col Hrow Hcol. change (Z.succ n) with (n + 1).
    rewrite grid_cells_succ by assumption.
    assert (Hlen : Z.of_nat (List.length (grid_cells W n)) = W * n)
      by (apply grid_cells_length; lia).
    destruct (Z.eq_dec row n) as [-> | Hne].
    + rewrite nth_error_app2 by nia.
      replace (Z.to_nat (n * W + col) - List.length (grid_cells W n))%nat
        with (Z.to_nat col) by nia.
      rewrite nth_error_map, indices_nth by assumption. reflexivity.
    + rewrite nth_error_app1 by nia. apply IH; lia.
Qed.

(** X23. For an image with every cell kept, the batches of the reveal are
    the rows of the grid: the records with indices in batch [k] are those of
    row [k], in the order of their columns. *)
Theorem opaque_batches_are_rows
    (data : Uint8ClampedArray) (W H k i : Z) (p : PixelInfo) :
  0 < W -> 0 <= H -> 0 <= k ->
  (forall row col, 0 <= row < H -> 0 <= col < W ->
     exists a, cell_alpha data W row col = Some a /\ 30 <= a) ->
  in_batch k W (sample data W H) i ->
  nth_error (sample data W H) (Z.to_nat i) = Some p ->
  p = cell_record data W H k (i - k * W)
  /\ y p = add (neg (ofZ k)) (div (ofZ H) (ofZ 2)).
Proof.
  intros HW HH Hk Hopaque Hbatch Hp.
  assert (Hall : filter (cell_kept data W) (grid_cells W H) = grid_cells W H).
  { apply filter_all. intros [row col] Hin. apply grid_cells_In in Hin.
    destruct Hin as [Hr Hc]. destruct (Hopaque row col Hr Hc) as (a & Ha & Hop).
    unfold cell_kept. cbn [fst snd]. rewrite (kept_alpha _ _ _ _ _ Ha).
    now apply Z.leb_le. }
  unfold in_batch in Hbatch.
  rewrite sample_rows, rows_as_cells, Hall in Hbatch, Hp by lia.
  rewrite length_map in Hbatch.
  assert (Hlen : Z.of_nat (List.length (grid_cells W H)) = W * H)
    by (apply grid_cells_length; lia).
  rewrite Hlen in Hbatch.
  assert (Hrow : 0 <= k < H) by nia.
  assert (Hcol : 0 <= i - k * W < W) by lia.
  rewrite nth_error_map in Hp.
  replace i with (k * W + (i - k * W)) in Hp at 1 by lia.
  rewrite (grid_cells_nth W H k (i - k * W) HH Hrow Hcol) in Hp.
  cbn [option_map] in Hp. injection Hp as <-.
  split; reflexivity.
Qed.

Lemma opaque_batches_are_rows_witness :
  nth_error (sample white_row 2 1) 1 = Some (cell_record white_row 2 1 0 1).
Proof.
  destruct (nth_error (sample white_row 2 1) 1) as [p |] eqn:Hp;
    [| vm_compute in Hp; discriminate].
  f_equal.
  destruct (opaque_batches_are_rows white_row 2 1 0 1 p) as [Hcell _];
    try lia; try exact Hp.
  - intros row col Hrow Hcol. exists 255. split; [| lia].
    assert (R : row = 0) by lia. assert (C : col = 0 \/ col = 1) by lia.
    subst row. destruct C as [-> | ->]; reflexivity.
  - unfold in_batch. vm_compute. split; [discriminate | reflexivity].
  - exact Hcell.
Defined.

(** ** The reveal animation between renders *)

(** A frame either leaves the batch counter and the stored scales alone, or
    advances the counter and stores the scales of its render with the
    current batch set to 1. *)
Lemma revealFrame_counter (r : Render.Rendering) (delta : float) (h : Render.Hooks) :
  let b := Render.batchIndexRef h in
  let W := Render.pixelWidth (Render.props r) in
  let length := Z.of_nat (List.length (Render.pixels (Render.props r))) in
  let h' := Render.revealFrame r delta h in
  (Render.batchIndexRef h' = b /\ Render.scalesState h' = Render.scalesState h)
  \/ (Render.batchIndexRef h' = b + 1
      /\ Render.scalesState h'
         = for_range (b * W) (Z.min (b * W + W) length)
             (fun i newScales => JsArray.set newScales i 1) (Render.scales r)).
Proof.
  cbv zeta. unfold Render.revealFrame.
  destruct (_ <? Binary64.ofZ (Render.batchIndexRef h))%float; [now left |].
  destruct (_ <? Render.scaleProgressRef h + delta)%float; cbn; [right | left];
    split; reflexivity.
Qed.

(** X24. A frame that runs before React has rendered the grid again builds
    its array from the scales of the same render as the frame before it.
    When two such frames each reveal a batch, the cells of the first batch
    are 1 in the array the first frame stores, and in the array the second
    frame stores they are back at the scale the render had: the batch
    counter has moved past a batch that the stored scales no longer show. *)
Theorem frame_before_render_drops_a_batch
    (r : Render.Rendering) (d1 d2 : float) (h : Render.Hooks) :
  let b := Render.batchIndexRef h in
  let W := Render.pixelWidth (Render.props r) in
  let ps := Render.pixels (Render.props r) in
  let h1 := Render.revealFrame r d1 h in
  let h2 := Render.revealFrame r d2 h1 in
  Render.batchIndexRef h2 = b + 2 ->
  Render.batchIndexRef h1 = b + 1
  /\ forall i, 0 <= i -> in_batch b W ps i ->
       JsArray.get (Render.scalesState h1) i = Some 1
       /\ JsArray.get (Render.scalesState h2) i = JsArray.get (Render.scales r) i.
Proof.
  cbv zeta. intros Hboth.
  destruct (revealFrame_counter r d2 (Render.revealFrame r d1 h)) as [[Hb2 _] | [Hb2 Hs2]];
    destruct (revealFrame_counter r d1 h) as [[Hb1 _] | [Hb1 Hs1]];
    cbv zeta in *; try lia.
  split; [exact Hb1 |]. intros i Hi Hin.
  rewrite Hs1, Hs2, Hb1, !reveal_loop_get by assumption.
  unfold in_batch in Hin.
  set (b := Render.batchIndexRef h) in *.
  set (W := Render.pixelWidth (Render.props r)) in *.
  set (len := Z.of_nat (List.length (Render.pixels (Render.props r)))) in *.
  split.
  - destruct (Z.leb_spec (b * W) i), (Z.ltb_spec i (Z.min (b * W + W) len));
      cbn; try reflexivity; lia.
  - destruct (Z.leb_spec ((b + 1) * W) i),
      (Z.ltb_spec i (Z.min ((b + 1) * W + W) len)); cbn; try reflexivity; lia.
Qed.

Lemma frame_before_render_drops_a_batch_witness :
  let r := Render.rendering demo_grid in
  let h1 := Render.revealFrame r 2.5%float (Render.hooks demo_grid) in
  let h2 := Render.revealFrame r 0.015625%float h1 in
  Render.batchIndexRef h2 = 2
  /\ JsArray.get (Render.scalesState h1) 0 = Some 1
  /\ JsArray.get (Render.scalesState h2) 0 = Some 0
  /\ Render.scalesState h2 = [Some 0; Some 0; Some 1].
Proof.
  cbv zeta.
  assert (Hboth : Render.batchIndexRef
                    (Render.revealFrame (Render.rendering demo_grid) 0.015625%float
                       (Render.revealFrame (Render.rendering demo_grid) 2.5%float
                          (Render.hooks demo_grid)))
                  = Render.batchIndexRef (Render.hooks demo_grid) + 2)
    by (vm_compute; reflexivity).
  destruct (frame_before_render_drops_a_batch (Render.rendering demo_grid)
              2.5%float 0.015625%float (Render.hooks demo_grid) Hboth) as [_ Hcells].
  destruct (Hcells 0) as [Hfirst Hsecond];
    [lia | vm_compute; split; [discriminate | reflexivity] |].
  split; [vm_compute; reflexivity |]. split; [exact Hfirst |].
  split; [rewrite Hsecond; vm_compute; reflexivity | vm_compute; reflexivity].
Defined.

(** X25. The reset, for the records the grid holds.  A commit whose counter
    differs from the one the grid last saw stores a zero for each record of
    the props, and sets the accumulator and the batch counter to 0; the
    render just committed still shows the scales from before, and the next
    render of the same props shows every one of those cells hidden and
    resets nothing.  A commit with the counter the grid has seen resets
    nothing. *)
Theorem commit_resets_on_a_new_counter (m : Render.Mounted) (p : Render.Props) :
  let m' := Render.step m (Render.Commit p) in
  (Render.fileChangeCount p <> Render.prevFileChangeCountRef (Render.hooks m) ->
     Render.scalesState (Render.hooks m')
     = JsArray.fill (List.length (Render.pixels p)) 0
     /\ Render.scaleProgressRef (Render.hooks m') = 0%float
     /\ Render.batchIndexRef (Render.hooks m') = 0
     /\ Render.prevFileChangeCountRef (Render.hooks m') = Render.fileChangeCount p
     /\ Render.scales (Render.rendering m') = Render.scalesState (Render.hooks m)
     /\ Render.hooks (Render.step m' (Render.Commit p)) = Render.hooks m'
     /\ forall i, 0 <= i < Z.of_nat (List.length (Render.pixels p)) ->
          Render.shown (Render.step m' (Render.Commit p)) i = Some 0)
  /\ (Render.fileChangeCount p = Render.prevFileChangeCountRef (Render.hooks m) ->
        Render.hooks m' = Render.hooks m).
Proof.
  cbv zeta. unfold Render.step, Render.resetEffect, Render.render, Render.shown.
  cbn [Render.hooks Render.rendering Render.props Render.scales]. split.
  - intros Hnew. apply Z.eqb_neq in Hnew. rewrite Hnew.
    cbn [negb Render.scalesState Render.scaleProgressRef Render.batchIndexRef
         Render.prevFileChangeCountRef].
    rewrite Z.eqb_refl. cbn [negb Render.scalesState].
    do 6 (split; [reflexivity |]).
    intros i Hi. rewrite get_fill.
    destruct (Z.leb_spec 0 i), (Z.ltb_spec i (Z.of_nat (List.length (Render.pixels p))));
      cbn; try reflexivity; lia.
  - intros Hsame. apply Z.eqb_eq in Hsame. now rewrite Hsame.
Qed.

Lemma commit_resets_on_a_new_counter_witness :
  let before := Render.run reveal_events demo_grid in
  let props := PixelGrid_props (art reloading_world) demo_pixels in
  let reset := Render.step before (Render.Commit props) in
  Render.scalesState (Render.hooks before) = [Some 1; Some 1; Some 1]
  /\ Render.scalesState (Render.hooks reset) = [Some 0; Some 0; Some 0]
  /\ Render.batchIndexRef (Render.hooks before) = 2
  /\ Render.batchIndexRef (Render.hooks reset) = 0
  /\ Render.shown reset 2 = Some 1
  /\ Render.shown (Render.step reset (Render.Commit props)) 2 = Some 0.
Proof.
  cbv zeta.
  destruct (commit_resets_on_a_new_counter (Render.run reveal_events demo_grid)
              (PixelGrid_props (art reloading_world) demo_pixels)) as [Hreset _].
  destruct Hreset as (Hscales & _ & Hbatch & _ & Hshown & _ & Hhidden);
    [vm_compute; discriminate |].
  split; [vm_compute; reflexivity |].
  split; [rewrite Hscales; vm_compute; reflexivity |].
  split; [vm_compute; reflexivity |]. split; [exact Hbatch |].
  split; [unfold Render.shown; rewrite Hshown; vm_compute; reflexivity |].
  apply Hhidden. vm_compute. split; [discriminate | reflexivity].
Defined.
